(** * Entanglement attempt engine of [server.py]

    A shallow embedding of [run_quantum_simulation] and
    [calculate_fidelity] from [src/server.py], and the properties of the
    bounded retry loop, of the emitted trace and of the result summary.

    Number model.  The Python code computes with binary64 floats.  Here a
    float is an exact rational ([Q]): every arithmetic operation is the
    exact one, rounding is not modelled, and the special values (infinities,
    NaN) are not inputs.  Comparisons, [min] and [max] follow Python's
    evaluation order on a total order.  Integers ([attempt]) are [Z] and are
    converted with [inject_Z] where Python converts an [int] to a [float].

    Randomness.  [random.random()] reads the process-wide generator.  The
    generator is modelled as the infinite stream of the draws it will
    return; a call takes the head and leaves the tail.

    Values that are no floats.  [run_quantum_simulation] is written for a
    float noise level and a bool flag, and is embedded at these types.  The
    handler [simulate] passes it whatever the request holds: [run_on_json]
    is the same call on decoded JSON values, with the exceptions that
    [1.0 - noise_level] raises on a value that is no number. *)

From Stdlib Require Import String.
From Stdlib Require Import ZArith QArith Qminmax List Bool Lia Lqa.
From Stdlib Require Import Sorted.
From Equations Require Import Equations.
Import ListNotations.

Open Scope Q_scope.

(** ** Floats as rationals: comparisons, [min] and [max] *)

(** [x < y]. *)
Definition Qltb (x y : Q) : bool :=
  match x ?= y with Lt => true | _ => false end.

(** [x >= y]. *)
Definition Qgeb (x y : Q) : bool :=
  match x ?= y with Lt => false | _ => true end.

(** Python's [min(a, b)]: the first argument, unless the second is
    strictly smaller. *)
Definition py_min (a b : Q) : Q := if Qltb b a then b else a.

(** Python's [max(a, b)]: the first argument, unless the second is
    strictly greater. *)
Definition py_max (a b : Q) : Q := if Qltb a b then b else a.

(** ** The random source *)

Definition rng : Type := nat -> Q.

(** [random.random()]: the next draw and the generator after it. *)
Definition random (g : rng) : Q * rng := (g O, fun n => g (S n)).

(** What [random.random()] promises: every draw lies in [[0, 1)]. *)
Definition unit_draws (g : rng) : Prop := forall n, 0 <= g n /\ g n < 1.

(** ** Step records *)

Inductive status : Type :=
| Initializing | Sending | Purifying | Measuring | Success | Retry.

(** The f-strings of the step records, with the values they interpolate;
    the rendering to text is not modelled. *)
Inductive message : Type :=
| MsgInitializing (attempt max_attempts : Z)
| MsgBellPair
| MsgSending
| MsgPurifying
| MsgPurified (percent : Q)
| MsgMeasuring
| MsgSuccess (percent : Q)
| MsgRetry (percent : Q).

(** One dict of the [steps] list; the key ["fidelity"] is optional. *)
Record step : Type := mkStep {
  st_status : status;
  st_progress : Q;
  st_fidelity : option Q;
  st_attempt : Z;
  st_message : message
}.

Record results : Type := mkResults {
  r_success : bool;
  r_fidelity : Q;
  r_attempts : Z;
  r_latency : Q;
  r_noiseLevel : Q;
  r_purificationEnabled : bool
}.

(** The returned dict [{"steps": steps, "results": results}]. *)
Record output : Type := mkOutput {
  o_steps : list step;
  o_results : results
}.

Inductive exn : Type := IndexError.

Inductive py_result (A : Type) : Type :=
| Returned (a : A)
| Raised (e : exn).
Arguments Returned {A} a.
Arguments Raised {A} e.

(** ** [calculate_fidelity] *)

Definition calculate_fidelity (noise_level : Q) (attempt : Z) (g : rng)
  : Q * rng :=
  let base_fidelity := 1.0 - noise_level in
  let (r, g) := random g in
  let random_factor := (r * 0.2) - 0.1 in
  let attempt_bonus := inject_Z (attempt - 1) * 0.05 in
  let fidelity := base_fidelity + random_factor + attempt_bonus in
  (py_max 0.5 (py_min 1.0 fidelity), g).

(** ** [run_quantum_simulation] *)

Definition threshold : Q := 0.8.
Definition max_attempts : Z := 3.

(** The local variables of the function that the loop reads and writes,
    and the generator. *)
Record loop_state : Type := mkLoop {
  steps : list step;
  attempt : Z;
  success : bool;
  gen : rng
}.

Definition initial_state (g : rng) : loop_state :=
  {| steps := []; attempt := 0; success := false; gen := g |}.

(** [not success and attempt < max_attempts] *)
Definition loop_cond (s : loop_state) : bool :=
  negb (success s) && (attempt s <? max_attempts)%Z.

(** The [if purification_enabled and fidelity < threshold] block: the two
    "purifying" records around the boost. *)
Definition purify (purification_enabled : bool) (attempt : Z)
    (steps : list step) (fidelity : Q) (g : rng) : list step * Q * rng :=
  if purification_enabled && Qltb fidelity threshold then
    let steps :=
      steps ++ [mkStep Purifying 0.4 (Some fidelity) attempt MsgPurifying] in
    let (r, g) := random g in
    let fidelity := fidelity + (0.2 + r * 0.1) in
    let fidelity := py_min fidelity 1.0 in
    let steps :=
      steps ++ [mkStep Purifying 0.5 (Some fidelity) attempt
                  (MsgPurified (fidelity * 100))] in
    (steps, fidelity, g)
  else (steps, fidelity, g).

(** One pass through the body of the [while] loop. *)
Definition loop_body (noise_level : Q) (purification_enabled : bool)
    (s : loop_state) : loop_state :=
  let attempt := (attempt s + 1)%Z in
  let steps :=
    steps s ++ [mkStep Initializing 0.1 None attempt
                  (MsgInitializing attempt max_attempts)] in
  let steps :=
    steps ++ [mkStep Initializing 0.2 None attempt MsgBellPair] in
  let steps :=
    steps ++ [mkStep Sending 0.3 None attempt MsgSending] in
  let (fidelity, g) := calculate_fidelity noise_level attempt (gen s) in
  let '(steps, fidelity, g) :=
    purify purification_enabled attempt steps fidelity g in
  let steps :=
    steps ++ [mkStep Measuring 0.7 (Some fidelity) attempt MsgMeasuring] in
  if Qgeb fidelity threshold then
    {| steps := steps ++ [mkStep Success 1.0 (Some fidelity) attempt
                            (MsgSuccess (fidelity * 100))];
       attempt := attempt; success := true; gen := g |}
  else
    {| steps := steps ++ [mkStep Retry 0.9 (Some fidelity) attempt
                            (MsgRetry (fidelity * 100))];
       attempt := attempt; success := success s; gen := g |}.

(** The value of a loop test together with the equation that recalls it. *)
Definition inspect {A : Type} (a : A) : {b : A | a = b} := exist _ a eq_refl.

(** The [while] loop.  Each pass adds one to [attempt], so the distance to
    [max_attempts] decreases. *)
Equations? while_loop (noise_level : Q) (purification_enabled : bool)
    (s : loop_state) : loop_state
    by wf (Z.to_nat (max_attempts - attempt s)) lt :=
  while_loop noise_level purification_enabled s with inspect (loop_cond s) => {
    | exist _ true c :=
        while_loop noise_level purification_enabled
          (loop_body noise_level purification_enabled s);
    | exist _ false _ := s }.
Proof.
  assert (E : attempt (loop_body noise_level purification_enabled s)
              = (attempt s + 1)%Z).
  { unfold loop_body.
    destruct (calculate_fidelity _ _ _) as [f g].
    destruct (purify _ _ _ _ _) as [[st f'] g'].
    destruct (Qgeb f' threshold); reflexivity. }
  rewrite E.
  unfold loop_cond in c. apply andb_prop in c. destruct c as [_ c].
  apply Z.ltb_lt in c.
  change (Z.to_nat (max_attempts - (attempt s + 1))
          < Z.to_nat (max_attempts - attempt s))%nat.
  unfold max_attempts in *. lia.
Qed.

(** [steps[-1]]: the last element, [IndexError] on the empty list. *)
Fixpoint last_item (l : list step) : py_result step :=
  match l with
  | [] => Raised IndexError
  | [x] => Returned x
  | _ :: l' => last_item l'
  end.

(** [d.get("fidelity", 0)] *)
Definition get_fidelity (d : step) (default : Q) : Q :=
  match st_fidelity d with
  | Some f => f
  | None => default
  end.

Definition run_quantum_simulation (noise_level : Q)
    (purification_enabled : bool) (g : rng) : py_result output * rng :=
  let s := while_loop noise_level purification_enabled (initial_state g) in
  let latency := inject_Z (attempt s) * (1 + noise_level) in
  match last_item (steps s) with
  | Raised e => (Raised e, gen s)
  | Returned last =>
      let results :=
        {| r_success := success s;
           r_fidelity := get_fidelity last 0;
           r_attempts := attempt s;
           r_latency := latency;
           r_noiseLevel := noise_level;
           r_purificationEnabled := purification_enabled |} in
      (Returned {| o_steps := steps s; o_results := results |}, gen s)
  end.

(** ** Vocabulary of the statements *)

(** The state in which attempt number [k] (counted from 1) starts: [k - 1]
    passes through the loop body after the initial state. *)
Definition before_attempt (noise_level : Q) (purification_enabled : bool)
    (g : rng) (k : nat) : loop_state :=
  Nat.iter (pred k) (loop_body noise_level purification_enabled)
    (initial_state g).

(** The value [calculate_fidelity] returns in attempt number [k]. *)
Definition raw_fidelity (noise_level : Q) (purification_enabled : bool)
    (g : rng) (k : nat) : Q :=
  fst (calculate_fidelity noise_level (Z.of_nat k)
         (gen (before_attempt noise_level purification_enabled g k))).

(** The records of a trace that belong to attempt number [k]. *)
Definition steps_of_attempt (k : nat) (trace : list step) : list step :=
  filter (fun d => (st_attempt d =? Z.of_nat k)%Z) trace.

Definition is_purifying (d : step) : bool :=
  match st_status d with Purifying => true | _ => false end.

Definition has_fidelity (d : step) : bool :=
  match st_fidelity d with Some _ => true | None => false end.

Definition is_measuring (d : step) : bool :=
  match st_status d with Measuring => true | _ => false end.

(** "The fidelity field is present from the [opens] record of the attempt
    onward": a record of the trace carries a fidelity exactly when a record
    accepted by [opens], of the same attempt, stands at its place or
    earlier in the trace. *)
Definition fidelity_from (opens : step -> bool) (trace : list step) : Prop :=
  forall pre d post,
    trace = pre ++ d :: post ->
    (has_fidelity d = true <->
     exists m, In m (pre ++ [d]) /\ opens m = true
               /\ st_attempt m = st_attempt d).

(** What one pass through the loop body does, read off the state [s] in
    which it starts: the value of [calculate_fidelity], whether the
    purification block runs, the fidelity that is measured, and the records
    the pass appends. *)
Definition pass_raw (noise_level : Q) (s : loop_state) : Q :=
  fst (calculate_fidelity noise_level (attempt s + 1) (gen s)).

Definition pass_purifies (noise_level : Q) (purification_enabled : bool)
    (s : loop_state) : bool :=
  purification_enabled && Qltb (pass_raw noise_level s) threshold.

Definition pass_fidelity (noise_level : Q) (purification_enabled : bool)
    (s : loop_state) : Q :=
  if pass_purifies noise_level purification_enabled s
  then py_min (pass_raw noise_level s + (0.2 + gen s 1%nat * 0.1)) 1.0
  else pass_raw noise_level s.

Definition emitted (noise_level : Q) (purification_enabled : bool)
    (s : loop_state) : list step :=
  let k := (attempt s + 1)%Z in
  let raw := pass_raw noise_level s in
  let f := pass_fidelity noise_level purification_enabled s in
  [mkStep Initializing 0.1 None k (MsgInitializing k max_attempts);
   mkStep Initializing 0.2 None k MsgBellPair;
   mkStep Sending 0.3 None k MsgSending]
  ++ (if pass_purifies noise_level purification_enabled s
      then [mkStep Purifying 0.4 (Some raw) k MsgPurifying;
            mkStep Purifying 0.5 (Some f) k (MsgPurified (f * 100))]
      else [])
  ++ [mkStep Measuring 0.7 (Some f) k MsgMeasuring;
      if Qgeb f threshold
      then mkStep Success 1.0 (Some f) k (MsgSuccess (f * 100))
      else mkStep Retry 0.9 (Some f) k (MsgRetry (f * 100))].

(** Two generators used in the examples: every draw 0, every draw 1/2. *)
Definition zeros : rng := fun _ => 0.
Definition halves : rng := fun _ => 0.5.

Definition returned_output (r : py_result output) : output :=
  match r with
  | Returned out => out
  | Raised _ => mkOutput [] (mkResults false 0 0 0 0 false)
  end.

(** The run with noise level 0.3, purification and every draw 1/2: one
    attempt, purified from 0.7 to 0.95. *)
Definition purified_run : output :=
  Eval vm_compute in
    returned_output (fst (run_quantum_simulation 0.3 true halves)).

(** The run with noise level 1.0, purification and every draw 0: three
    attempts, each purified from 0.5 to 0.7. *)
Definition exhausted_run : output :=
  Eval vm_compute in
    returned_output (fst (run_quantum_simulation 1.0 true zeros)).

(** ** The request handler [simulate] *)

(** A decoded JSON value, as Python's decoder gives it.  A number written
    with a fraction or an exponent is a float ([JNumber], a rational as the
    floats of the engine are); a number written without is an integer of
    any size ([JInt]).  The literals [NaN] and [Infinity] that the decoder
    also accepts are not modelled. *)
#[local] Set Warnings "-register-all".
Inductive json : Type :=
| JNull
| JBool (b : bool)
| JNumber (q : Q)
| JInt (z : Z)
| JString (s : string)
| JArray (l : list json)
| JObject (l : list (string * json)).
#[local] Set Warnings "register-all".

(** The dict decoded from the body of the request ([request.json]). *)
Definition dict : Type := string -> option json.

(** [d.get(key, default)]: the value stored under [key] when there is
    one, whatever it is; the default only when the key is absent. *)
Definition dict_get (d : dict) (key : string) (default : json) : json :=
  match d key with
  | Some v => v
  | None => default
  end.

(** Python converts the integer operand of a float operation to a float,
    rounding to the nearest one, and raises [OverflowError] when the
    rounded value would reach [2 ^ 1024]: for a magnitude of [float_limit]
    or more. *)
Definition float_limit : Z := Eval vm_compute in (2 ^ 1024 - 2 ^ 970)%Z.

Definition fits_float (z : Z) : bool := (Z.abs z <? float_limit)%Z.

(** The operand of [1.0 - noise_level] and of [1 + noise_level]: a float,
    an integer that converts to a float, or a bool, which Python counts as
    the integer 1 or 0.  On every other value the subtraction raises. *)
Definition as_number (v : json) : option Q :=
  match v with
  | JNumber q => Some q
  | JInt z => if fits_float z then Some (inject_Z z) else None
  | JBool b => Some (if b then 1 else 0)
  | JNull | JString _ | JArray _ | JObject _ => None
  end.

(** The truth value of [purification_enabled] in
    [purification_enabled and fidelity < threshold]. *)
Definition truthy (v : json) : bool :=
  match v with
  | JNull => false
  | JBool b => b
  | JNumber q => negb (Qeq_bool q 0)
  | JInt z => negb (z =? 0)%Z
  | JString s => negb (String.eqb s EmptyString)
  | JArray l => match l with [] => false | _ :: _ => true end
  | JObject l => match l with [] => false | _ :: _ => true end
  end.

Inductive handler_exn : Type :=
| TypeError
| OverflowError
| Propagated (e : exn).

(** What [1.0 - noise_level] raises on a value that is no operand:
    [OverflowError] for an integer, which is then too large, and
    [TypeError] for null, a string, an array or an object. *)
Definition operand_error (v : json) : handler_exn :=
  match v with
  | JInt _ => OverflowError
  | _ => TypeError
  end.

(** The dict handed to [jsonify]: the trace and the summary, whose last two
    fields are the values of the request as they came. *)
Record response : Type := mkResponse {
  resp_steps : list step;
  resp_success : bool;
  resp_fidelity : Q;
  resp_attempts : Z;
  resp_latency : Q;
  resp_noiseLevel : json;
  resp_purificationEnabled : json
}.

Inductive handled : Type :=
| Jsonified (r : response)
| Unhandled (e : handler_exn).

(** [run_quantum_simulation] as the handler calls it, on decoded JSON
    values.  The first use of [noise_level] is [1.0 - noise_level] in
    [calculate_fidelity], in the first pass of the loop and before any
    draw: it raises unless the value is a float, an integer that converts
    to one, or a bool.  [purification_enabled] is only tested for truth.
    The summary copies both values as they are. *)
Definition run_on_json (noise_level purification_enabled : json) (g : rng)
  : handled * rng :=
  match as_number noise_level with
  | None => (Unhandled (operand_error noise_level), g)
  | Some n =>
      match run_quantum_simulation n (truthy purification_enabled) g with
      | (Returned out, g') =>
          (Jsonified
             {| resp_steps := o_steps out;
                resp_success := r_success (o_results out);
                resp_fidelity := r_fidelity (o_results out);
                resp_attempts := r_attempts (o_results out);
                resp_latency := r_latency (o_results out);
                resp_noiseLevel := noise_level;
                resp_purificationEnabled := purification_enabled |}, g')
      | (Raised e, g') => (Unhandled (Propagated e), g')
      end
  end.

Definition simulate (data : dict) (g : rng) : handled * rng :=
  let noise_level := dict_get data "noiseLevel"%string (JNumber 0.2) in
  let purification_enabled :=
    dict_get data "purificationEnabled"%string (JBool false) in
  run_on_json noise_level purification_enabled g.

(** A request dict with one more key, as the examples build them. *)
Definition dict_set (d : dict) (key : string) (v : json) : dict :=
  fun k => if String.eqb k key then Some v else d k.

Definition empty_dict : dict := fun _ => None.

(** An integer far beyond the floats: 1 followed by 400 zeros. *)
Definition huge_integer : Z := Eval vm_compute in (10 ^ 400)%Z.

(** The request [{"purificationEnabled": "false"}]. *)
Definition string_false_request : dict :=
  dict_set empty_dict "purificationEnabled"%string (JString "false").

(** ** Further vocabulary *)

(** The fidelity that attempt number [k] measures: the value of
    [calculate_fidelity], boosted when the purification block runs. *)
Definition measured_fidelity (noise_level : Q) (purification_enabled : bool)
    (g : rng) (k : nat) : Q :=
  pass_fidelity noise_level purification_enabled
    (before_attempt noise_level purification_enabled g k).

(** The fidelity fields of a list of records, in order. *)
Definition fidelities (l : list step) : list Q :=
  flat_map (fun d => match st_fidelity d with
                     | Some f => [f]
                     | None => []
                     end) l.

(** Two generators give the same first [m] draws. *)
Definition same_draws (m : nat) (g g' : rng) : Prop :=
  forall i, (i < m)%nat -> g i = g' i.

(** * Properties *)

(** ** Comparisons *)

Lemma Qltb_lt x y : Qltb x y = true <-> x < y.
Proof.
  unfold Qltb. rewrite Qlt_alt. destruct (x ?= y); intuition congruence.
Qed.

Lemma Qltb_ge x y : Qltb x y = false <-> y <= x.
Proof.
  unfold Qltb. rewrite Qle_alt, <- Qgt_alt, Qlt_alt.
  destruct (x ?= y); intuition congruence.
Qed.

Lemma Qgeb_ge x y : Qgeb x y = true <-> y <= x.
Proof.
  rewrite <- Qltb_ge. unfold Qgeb, Qltb.
  destruct (x ?= y); intuition congruence.
Qed.

Lemma Qgeb_lt x y : Qgeb x y = false <-> x < y.
Proof.
  rewrite <- Qltb_lt. unfold Qgeb, Qltb.
  destruct (x ?= y); intuition congruence.
Qed.

Lemma py_min_cases a b :
  (b < a /\ py_min a b = b) \/ (a <= b /\ py_min a b = a).
Proof.
  unfold py_min. destruct (Qltb b a) eqn:E.
  - left. split; [now apply Qltb_lt | reflexivity].
  - right. split; [now apply Qltb_ge | reflexivity].
Qed.

Lemma py_max_cases a b :
  (a < b /\ py_max a b = b) \/ (b <= a /\ py_max a b = a).
Proof.
  unfold py_max. destruct (Qltb a b) eqn:E.
  - left. split; [now apply Qltb_lt | reflexivity].
  - right. split; [now apply Qltb_ge | reflexivity].
Qed.

(** ** [calculate_fidelity] *)

Lemma calculate_fidelity_gen noise k g :
  snd (calculate_fidelity noise k g) = fun n => g (S n).
Proof. reflexivity. Qed.

Lemma calculate_fidelity_range noise k g :
  0.5 <= fst (calculate_fidelity noise k g) <= 1.0.
Proof.
  unfold calculate_fidelity, random; cbn [fst].
  set (f := 1.0 - noise + (g O * 0.2 - 0.1) + inject_Z (k - 1) * 0.05).
  destruct (py_min_cases 1.0 f) as [[H1 ->] | [H1 ->]];
    [destruct (py_max_cases 0.5 f) as [[H2 ->] | [H2 ->]]
    |destruct (py_max_cases 0.5 1.0) as [[H2 ->] | [H2 ->]]]; lra.
Qed.

(** ** One pass through the loop body *)

Lemma loop_body_shape noise pur s :
  loop_body noise pur s =
  {| steps := steps s ++ emitted noise pur s;
     attempt := (attempt s + 1)%Z;
     success := Qgeb (pass_fidelity noise pur s) threshold || success s;
     gen := if pass_purifies noise pur s
            then fun n => gen s (S (S n))
            else fun n => gen s (S n) |}.
Proof.
  unfold loop_body, emitted, pass_fidelity, pass_purifies, pass_raw, purify.
  unfold calculate_fidelity, random; cbn [fst snd].
  set (raw := py_max 0.5 _).
  destruct (pur && Qltb raw threshold).
  - set (f := py_min _ 1.0).
    destruct (Qgeb f threshold); cbn [orb];
      repeat rewrite <- app_assoc; reflexivity.
  - destruct (Qgeb raw threshold); cbn [orb];
      repeat rewrite <- app_assoc; reflexivity.
Qed.

Lemma loop_body_attempt noise pur s :
  attempt (loop_body noise pur s) = (attempt s + 1)%Z.
Proof. rewrite loop_body_shape. reflexivity. Qed.

Lemma loop_body_steps noise pur s :
  steps (loop_body noise pur s) = steps s ++ emitted noise pur s.
Proof. rewrite loop_body_shape. reflexivity. Qed.

Lemma loop_body_success noise pur s :
  success (loop_body noise pur s)
  = Qgeb (pass_fidelity noise pur s) threshold || success s.
Proof. rewrite loop_body_shape. reflexivity. Qed.

(** ** The loop as a number of passes *)

Lemma while_loop_passes noise pur s :
  exists n : nat,
    while_loop noise pur s = Nat.iter n (loop_body noise pur) s
    /\ (forall j, (j < n)%nat ->
           loop_cond (Nat.iter j (loop_body noise pur) s) = true)
    /\ loop_cond (Nat.iter n (loop_body noise pur) s) = false.
Proof.
  funelim (while_loop noise pur s).
  - destruct H as (n & E & Hlt & Hn).
    exists (S n). rewrite Nat.iter_succ_r. repeat split; auto.
    intros [|j] Hj; [exact c | ].
    rewrite Nat.iter_succ_r. apply Hlt. lia.
  - exists O. repeat split; auto. intros j Hj. lia.
Qed.

Lemma attempt_iter noise pur s n :
  attempt (Nat.iter n (loop_body noise pur) s) = (attempt s + Z.of_nat n)%Z.
Proof.
  induction n as [|n IH].
  - cbn. lia.
  - rewrite Nat.iter_succ, loop_body_attempt, IH. lia.
Qed.

Lemma steps_iter noise pur s n :
  steps (Nat.iter n (loop_body noise pur) s)
  = steps s
    ++ flat_map (fun j => emitted noise pur
                            (Nat.iter j (loop_body noise pur) s))
         (seq 0 n).
Proof.
  induction n as [|n IH].
  - cbn. now rewrite app_nil_r.
  - rewrite Nat.iter_succ, loop_body_steps, IH, seq_S, flat_map_app.
    cbn [flat_map Nat.add]. now rewrite app_nil_r, app_assoc.
Qed.

Lemma last_item_app l x : last_item (l ++ [x]) = Returned x.
Proof.
  induction l as [|y l IH]; [reflexivity|].
  cbn [app last_item]. rewrite IH. now destruct (l ++ [x]) eqn:E.
Qed.

Lemma last_item_emitted noise pur s l :
  last_item (l ++ emitted noise pur s)
  = Returned
      (let k := (attempt s + 1)%Z in
       let f := pass_fidelity noise pur s in
       if Qgeb f threshold
       then mkStep Success 1.0 (Some f) k (MsgSuccess (f * 100))
       else mkStep Retry 0.9 (Some f) k (MsgRetry (f * 100))).
Proof.
  unfold emitted. cbv zeta.
  rewrite !app_assoc.
  match goal with |- context [?a ++ [?x; ?y]] =>
    change (a ++ [x; y]) with (a ++ [x] ++ [y]) end.
  rewrite app_assoc. apply last_item_app.
Qed.

(** The run from the initial state makes between one and three passes;
    the last one starts in the state [before_attempt _ _ _ n]. *)
Lemma run_passes noise pur g :
  exists n : nat,
    (1 <= n <= 3)%nat
    /\ while_loop noise pur (initial_state g)
       = Nat.iter n (loop_body noise pur) (initial_state g)
    /\ (forall k, (1 <= k <= n)%nat ->
          loop_cond (before_attempt noise pur g k) = true)
    /\ loop_cond (Nat.iter n (loop_body noise pur) (initial_state g))
       = false.
Proof.
  destruct (while_loop_passes noise pur (initial_state g))
    as (n & E & Hlt & Hn).
  exists n. split; [|repeat split; auto].
  - split.
    + destruct n; [discriminate Hn | lia].
    + destruct (Nat.le_gt_cases n 3) as [|Hgt]; [assumption|].
      specialize (Hlt 3%nat Hgt). unfold loop_cond in Hlt.
      rewrite attempt_iter in Hlt. cbn in Hlt.
      now rewrite andb_false_r in Hlt.
  - intros k Hk. unfold before_attempt. apply Hlt. lia.
Qed.

Lemma loop_cond_success s : loop_cond s = true -> success s = false.
Proof.
  unfold loop_cond. destruct (success s); [discriminate | reflexivity].
Qed.

Lemma before_attempt_attempt noise pur g k :
  (1 <= k)%nat ->
  (attempt (before_attempt noise pur g k) + 1)%Z = Z.of_nat k.
Proof.
  intros Hk. unfold before_attempt. rewrite attempt_iter. cbn. lia.
Qed.

Lemma iter_before_attempt noise pur g n :
  (1 <= n)%nat ->
  Nat.iter n (loop_body noise pur) (initial_state g)
  = loop_body noise pur (before_attempt noise pur g n).
Proof.
  intros Hn. unfold before_attempt.
  destruct n as [|n]; [lia | reflexivity].
Qed.

(** What [run_quantum_simulation] returns, in terms of the state in which
    the last pass starts. *)
Lemma run_returns noise pur g :
  exists n : nat,
    (1 <= n <= 3)%nat
    /\ (forall k, (1 <= k <= n)%nat ->
          loop_cond (before_attempt noise pur g k) = true)
    /\ let p := before_attempt noise pur g n in
       let f := pass_fidelity noise pur p in
       while_loop noise pur (initial_state g) = loop_body noise pur p
       /\ loop_cond (loop_body noise pur p) = false
       /\ fst (run_quantum_simulation noise pur g)
          = Returned
              {| o_steps := steps (loop_body noise pur p);
                 o_results :=
                   {| r_success := Qgeb f threshold;
                      r_fidelity := f;
                      r_attempts := Z.of_nat n;
                      r_latency := inject_Z (Z.of_nat n) * (1 + noise);
                      r_noiseLevel := noise;
                      r_purificationEnabled := pur |} |}.
Proof.
  destruct (run_passes noise pur g) as (n & Hn & E & Hlt & Hend).
  exists n. split; [assumption|]. split; [assumption|].
  cbv zeta. rewrite iter_before_attempt in * by lia.
  split; [assumption|]. split; [assumption|].
  unfold run_quantum_simulation. rewrite E.
  set (p := before_attempt noise pur g n) in *.
  assert (Hp : loop_cond p = true) by (apply Hlt; lia).
  assert (Ha : attempt (loop_body noise pur p) = Z.of_nat n).
  { rewrite loop_body_attempt. apply before_attempt_attempt. lia. }
  assert (Hs : success (loop_body noise pur p)
               = Qgeb (pass_fidelity noise pur p) threshold).
  { rewrite loop_body_success, (loop_cond_success p Hp).
    apply orb_false_r. }
  rewrite loop_body_steps at 1. rewrite last_item_emitted. cbv zeta.
  rewrite Ha, Hs. cbn [fst]. do 3 f_equal.
  destruct (Qgeb (pass_fidelity noise pur p) threshold); reflexivity.
Qed.

(** ** The trace as the records of the successive passes *)

Lemma steps_passes noise pur g n :
  steps (Nat.iter n (loop_body noise pur) (initial_state g))
  = flat_map (fun k => emitted noise pur (before_attempt noise pur g k))
      (seq 1 n).
Proof.
  induction n as [|n IH]; [reflexivity|].
  rewrite Nat.iter_succ, loop_body_steps, IH, seq_S, flat_map_app.
  cbn [flat_map Nat.add]. now rewrite app_nil_r.
Qed.

Lemma emitted_attempt noise pur s d :
  In d (emitted noise pur s) -> st_attempt d = (attempt s + 1)%Z.
Proof.
  unfold emitted. cbv zeta.
  destruct (pass_purifies noise pur s);
    destruct (Qgeb (pass_fidelity noise pur s) threshold);
    cbn [app In]; intuition (subst; reflexivity).
Qed.

Lemma filter_keep {A} (f : A -> bool) l :
  (forall x, In x l -> f x = true) -> filter f l = l.
Proof.
  induction l as [|a l IH]; intros H; [reflexivity|].
  cbn. rewrite (H a) by now left.
  f_equal. apply IH. intros x Hx. apply H. now right.
Qed.

Lemma filter_drop {A} (f : A -> bool) l :
  (forall x, In x l -> f x = false) -> filter f l = [].
Proof.
  induction l as [|a l IH]; intros H; [reflexivity|].
  cbn. rewrite (H a) by now left.
  apply IH. intros x Hx. apply H. now right.
Qed.

Lemma steps_of_attempt_emitted noise pur g j k :
  (1 <= j)%nat ->
  steps_of_attempt k (emitted noise pur (before_attempt noise pur g j))
  = if (j =? k)%nat then emitted noise pur (before_attempt noise pur g j)
    else [].
Proof.
  intros Hj. unfold steps_of_attempt.
  destruct (Nat.eqb_spec j k) as [->|Hne].
  - apply filter_keep. intros d Hd.
    rewrite (emitted_attempt _ _ _ _ Hd), before_attempt_attempt by lia.
    apply Z.eqb_refl.
  - apply filter_drop. intros d Hd.
    rewrite (emitted_attempt _ _ _ _ Hd), before_attempt_attempt by lia.
    apply Z.eqb_neq. lia.
Qed.

Lemma steps_of_attempt_passes noise pur g n k :
  steps_of_attempt k
    (flat_map (fun j => emitted noise pur (before_attempt noise pur g j))
       (seq 1 n))
  = if (1 <=? k)%nat && (k <=? n)%nat
    then emitted noise pur (before_attempt noise pur g k)
    else [].
Proof.
  induction n as [|n IH].
  - destruct k as [|k]; reflexivity.
  - rewrite seq_S, flat_map_app. unfold steps_of_attempt in *.
    rewrite filter_app, IH. cbn [flat_map Nat.add]. rewrite app_nil_r.
    fold (steps_of_attempt k
            (emitted noise pur (before_attempt noise pur g (S n)))).
    rewrite steps_of_attempt_emitted by lia.
    destruct (Nat.eqb_spec (S n) k) as [<-|Hne].
    + destruct (Nat.leb_spec (S n) n); [lia|].
      rewrite Nat.leb_refl, andb_false_r. reflexivity.
    + rewrite app_nil_r.
      destruct (Nat.leb_spec 1 k); cbn [andb]; [|reflexivity].
      destruct (Nat.leb_spec k n), (Nat.leb_spec k (S n));
        try reflexivity; lia.
Qed.

Lemma in_passes noise pur g n d :
  In d (flat_map (fun j => emitted noise pur (before_attempt noise pur g j))
          (seq 1 n)) ->
  exists k, (1 <= k <= n)%nat
            /\ In d (emitted noise pur (before_attempt noise pur g k)).
Proof.
  rewrite in_flat_map. intros (k & Hk & Hd).
  apply in_seq in Hk. exists k. split; [lia | assumption].
Qed.

(** A run, seen from its result. *)
Lemma run_spec noise pur g out :
  fst (run_quantum_simulation noise pur g) = Returned out ->
  exists n : nat,
    (1 <= n <= 3)%nat
    /\ (forall k, (1 <= k <= n)%nat ->
          loop_cond (before_attempt noise pur g k) = true)
    /\ o_steps out
       = flat_map (fun k => emitted noise pur (before_attempt noise pur g k))
           (seq 1 n)
    /\ o_results out
       = (let f := pass_fidelity noise pur (before_attempt noise pur g n) in
          {| r_success := Qgeb f threshold;
             r_fidelity := f;
             r_attempts := Z.of_nat n;
             r_latency := inject_Z (Z.of_nat n) * (1 + noise);
             r_noiseLevel := noise;
             r_purificationEnabled := pur |}).
Proof.
  intros Hrun.
  destruct (run_returns noise pur g) as (n & Hn & Hlt & _ & _ & E).
  rewrite E in Hrun. injection Hrun as <-.
  exists n. repeat split; try assumption; try lia.
  cbn [o_steps]. rewrite <- iter_before_attempt by lia.
  apply steps_passes.
Qed.

(** ** The generator keeps its promise along the run *)

Lemma unit_draws_loop_body noise pur s :
  unit_draws (gen s) -> unit_draws (gen (loop_body noise pur s)).
Proof.
  intros H. rewrite loop_body_shape. cbn [gen].
  destruct (pass_purifies noise pur s); intros n; apply H.
Qed.

Lemma unit_draws_before_attempt noise pur g k :
  unit_draws g -> unit_draws (gen (before_attempt noise pur g k)).
Proof.
  intros H. unfold before_attempt.
  induction (pred k) as [|n IH]; [exact H|].
  rewrite Nat.iter_succ. now apply unit_draws_loop_body.
Qed.

Lemma pass_raw_range noise s : 0.5 <= pass_raw noise s <= 1.0.
Proof. apply calculate_fidelity_range. Qed.

Lemma pass_fidelity_range noise pur s :
  unit_draws (gen s) -> 0.5 <= pass_fidelity noise pur s <= 1.0.
Proof.
  intros H. unfold pass_fidelity.
  pose proof (pass_raw_range noise s) as Hraw.
  destruct (pass_purifies noise pur s); [|assumption].
  destruct (H 1%nat) as [Hr _].
  destruct (py_min_cases (pass_raw noise s + (0.2 + gen s 1%nat * 0.1)) 1.0)
    as [[Hc ->] | [Hc ->]]; lra.
Qed.

Lemma pass_fidelity_boost noise pur s :
  unit_draws (gen s) -> pass_raw noise s <= pass_fidelity noise pur s.
Proof.
  intros H. unfold pass_fidelity.
  pose proof (pass_raw_range noise s) as Hraw.
  destruct (pass_purifies noise pur s); [|lra].
  destruct (H 1%nat) as [Hr _].
  destruct (py_min_cases (pass_raw noise s + (0.2 + gen s 1%nat * 0.1)) 1.0)
    as [[Hc ->] | [Hc ->]]; lra.
Qed.

Lemma raw_fidelity_pass noise pur g k :
  (1 <= k)%nat ->
  raw_fidelity noise pur g k
  = pass_raw noise (before_attempt noise pur g k).
Proof.
  intros Hk. unfold raw_fidelity, pass_raw.
  now rewrite before_attempt_attempt.
Qed.

(** ** The records of one pass *)

Lemma filter_purifying_emitted noise pur s :
  filter is_purifying (emitted noise pur s)
  = if pass_purifies noise pur s
    then [mkStep Purifying 0.4 (Some (pass_raw noise s)) (attempt s + 1)
            MsgPurifying;
          mkStep Purifying 0.5 (Some (pass_fidelity noise pur s))
            (attempt s + 1)
            (MsgPurified (pass_fidelity noise pur s * 100))]
    else [].
Proof.
  unfold emitted. cbv zeta.
  destruct (pass_purifies noise pur s);
    destruct (Qgeb (pass_fidelity noise pur s) threshold); reflexivity.
Qed.

Lemma emitted_length noise pur s :
  (length (emitted noise pur s) <= 7)%nat.
Proof.
  unfold emitted. cbv zeta.
  destruct (pass_purifies noise pur s); cbn; lia.
Qed.

Lemma emitted_fidelity_status noise pur s d :
  In d (emitted noise pur s) ->
  (st_fidelity d = None <->
   st_status d = Initializing \/ st_status d = Sending).
Proof.
  unfold emitted. cbv zeta.
  destruct (pass_purifies noise pur s);
    destruct (Qgeb (pass_fidelity noise pur s) threshold);
    cbn [app In]; intros H;
    repeat (destruct H as [<- | H]; [cbn; intuition congruence|]);
    destruct H.
Qed.

Lemma flat_map_length_le {A B} (f : A -> list B) (c : nat) l :
  (forall x, (length (f x) <= c)%nat) ->
  (length (flat_map f l) <= c * length l)%nat.
Proof.
  intros Hf. induction l as [|x l IH]; cbn [flat_map length]; [lia|].
  rewrite length_app. specialize (Hf x). lia.
Qed.

(** ** Where the fidelity field starts *)

Lemma fidelity_from_app opens a b :
  fidelity_from opens a ->
  (forall p d q,
     b = p ++ d :: q ->
     (has_fidelity d = true <->
      exists m, In m ((a ++ p) ++ [d]) /\ opens m = true
                /\ st_attempt m = st_attempt d)) ->
  fidelity_from opens (a ++ b).
Proof.
  intros Ha Hb pre d post E.
  apply app_eq_app in E. destruct E as (l & [[E1 E2] | [E1 E2]]).
  - destruct l as [|x l].
    + cbn in E2. rewrite app_nil_r in E1. subst a. symmetry in E2.
      apply (Hb [] d post) in E2. now rewrite app_nil_r in E2.
    + cbn in E2. injection E2 as <- E2. subst a.
      apply (Ha pre d l). reflexivity.
  - subst pre. apply (Hb l d post). assumption.
Qed.

(** A chunk [h ++ o :: r] of records of attempt [k], appended to records
    of other attempts: the records of [h] carry no fidelity and are not
    accepted by [opens]; [o] is accepted, and from [o] on every record
    carries a fidelity. *)
Lemma fidelity_from_chunk opens k a h o r :
  (forall m, In m a -> st_attempt m <> k) ->
  (forall m, In m (h ++ o :: r) -> st_attempt m = k) ->
  (forall m, In m h -> opens m = false /\ has_fidelity m = false) ->
  opens o = true ->
  (forall m, In m (o :: r) -> has_fidelity m = true) ->
  forall p d q,
    h ++ o :: r = p ++ d :: q ->
    (has_fidelity d = true <->
     exists m, In m ((a ++ p) ++ [d]) /\ opens m = true
               /\ st_attempt m = st_attempt d).
Proof.
  intros Ha Hk Hh Ho Hr p d q E.
  assert (Hd : st_attempt d = k).
  { apply Hk. rewrite E. apply in_elt. }
  assert (late : In d (o :: r) -> In o (p ++ [d]) ->
                 has_fidelity d = true <->
                 exists m, In m ((a ++ p) ++ [d]) /\ opens m = true
                           /\ st_attempt m = st_attempt d).
  { intros Hin Hop. split; [intros _ | intros _; now apply Hr].
    exists o. repeat split; [ | assumption | ].
    - rewrite <- app_assoc. apply in_or_app. now right.
    - rewrite Hd. apply Hk. apply in_elt. }
  apply app_eq_app in E. destruct E as (l & [[E1 E2] | [E1 E2]]).
  - destruct l as [|x l].
    + cbn in E2. injection E2 as <- <-.
      apply late; [now left | apply in_or_app; right; now left].
    + cbn in E2. injection E2 as <- E2.
      assert (Hdh : In d h) by (rewrite E1; apply in_elt).
      destruct (Hh d Hdh) as [_ Hf]. rewrite Hf.
      split; [discriminate|]. intros (m & Hm & Hom & Ham). exfalso.
      rewrite <- app_assoc in Hm. apply in_app_or in Hm.
      destruct Hm as [Hm | Hm].
      * apply (Ha m Hm). congruence.
      * assert (Hmh : In m h).
        { rewrite E1. apply in_app_or in Hm. apply in_or_app.
          destruct Hm as [Hm | [<- | []]]; [now left | right; now left]. }
        destruct (Hh m Hmh) as [Hc _]. congruence.
  - destruct l as [|x l].
    + cbn in E2. injection E2 as <- <-.
      apply late; [now left | apply in_or_app; right; now left].
    + cbn in E2. injection E2 as <- E2.
      apply late.
      * right. rewrite E2. apply in_elt.
      * apply in_or_app. left. rewrite E1. apply in_elt.
Qed.

Lemma fidelity_from_emitted noise pur s a :
  (forall m, In m a -> st_attempt m <> (attempt s + 1)%Z) ->
  forall p d q,
    emitted noise pur s = p ++ d :: q ->
    (has_fidelity d = true <->
     exists m,
       In m ((a ++ p) ++ [d])
       /\ is_purifying m || is_measuring m = true
       /\ st_attempt m = st_attempt d).
Proof.
  intros Ha.
  pose proof (emitted_attempt noise pur s) as Hk.
  revert Hk. unfold emitted. cbv zeta.
  destruct (pass_purifies noise pur s); cbn [app]; intros Hk;
    match goal with
    | |- forall p d q, ?x1 :: ?x2 :: ?x3 :: ?o :: ?r = _ -> _ =>
        apply (fidelity_from_chunk _ (attempt s + 1)%Z a [x1; x2; x3] o r)
    end; try assumption; try reflexivity.
  all: intros m Hm; cbn [In] in Hm;
    repeat (destruct Hm as [<- | Hm];
            [first [reflexivity | split; reflexivity
                   | now destruct (Qgeb _ _)] |]);
    destruct Hm.
Qed.

Lemma passes_attempt_le noise pur g n m :
  In m (flat_map (fun k => emitted noise pur (before_attempt noise pur g k))
          (seq 1 n)) ->
  (1 <= st_attempt m <= Z.of_nat n)%Z.
Proof.
  intros Hm. apply in_passes in Hm. destruct Hm as (k & Hk & Hm).
  rewrite (emitted_attempt _ _ _ _ Hm), before_attempt_attempt by lia.
  lia.
Qed.

Lemma fidelity_from_passes noise pur g n :
  fidelity_from (fun m => is_purifying m || is_measuring m)
    (flat_map (fun k => emitted noise pur (before_attempt noise pur g k))
       (seq 1 n)).
Proof.
  induction n as [|n IH].
  - intros [|x pre] d post E; discriminate E.
  - rewrite seq_S, flat_map_app. cbn [flat_map Nat.add].
    rewrite app_nil_r.
    apply fidelity_from_app; [exact IH|].
    apply fidelity_from_emitted. intros m Hm.
    apply passes_attempt_le in Hm.
    rewrite before_attempt_attempt by lia. lia.
Qed.


(** ** Full noise *)

Lemma calculate_fidelity_full_noise k g :
  (k <= 3)%Z -> g O < 1 -> fst (calculate_fidelity 1.0 k g) = 0.5.
Proof.
  intros Hk Hr. unfold calculate_fidelity, random; cbn [fst].
  set (f := 1.0 - 1.0 + (g O * 0.2 - 0.1) + inject_Z (k - 1) * 0.05).
  assert (Hb : inject_Z (k - 1) <= 2).
  { change 2 with (inject_Z 2). rewrite <- Zle_Qle. lia. }
  assert (Hf : f <= 0.5) by (unfold f; lra).
  destruct (py_min_cases 1.0 f) as [[H1 ->] | [H1 ->]]; [|lra].
  destruct (py_max_cases 0.5 f) as [[H2 ->] | [H2 ->]]; [lra | reflexivity].
Qed.

Lemma pass_fidelity_full_noise s :
  unit_draws (gen s) -> (attempt s + 1 <= 3)%Z ->
  pass_raw 1.0 s = 0.5 /\ pass_fidelity 1.0 false s = 0.5.
Proof.
  intros Hg Hk.
  assert (E : pass_raw 1.0 s = 0.5).
  { apply calculate_fidelity_full_noise; [assumption | apply Hg]. }
  split; [exact E|]. unfold pass_fidelity, pass_purifies. exact E.
Qed.

(** * The claims *)

(** C1.  [results.success] is true if and only if the last record of the
    trace has status "success" and carries a fidelity of at least 0.8; when
    [results.success] is false the last record has status "retry".  This
    holds for every noise level, both purification settings and every
    stream of draws. *)
Theorem success_iff_final_step noise pur g :
  exists out d,
    fst (run_quantum_simulation noise pur g) = Returned out
    /\ last_item (o_steps out) = Returned d
    /\ (r_success (o_results out) = true <->
        st_status d = Success
        /\ exists f, st_fidelity d = Some f /\ 0.8 <= f)
    /\ (r_success (o_results out) = false -> st_status d = Retry).
Proof.
  destruct (run_returns noise pur g) as (n & Hn & Hlt & _ & _ & E).
  cbv zeta in E. rewrite E. clear E.
  set (p := before_attempt noise pur g n).
  eexists. eexists. split; [reflexivity|].
  cbn [o_steps o_results r_success].
  rewrite loop_body_steps, last_item_emitted. cbv zeta.
  split; [reflexivity|].
  destruct (Qgeb (pass_fidelity noise pur p) threshold) eqn:Hok;
    cbn [st_status st_fidelity].
  - split; [|discriminate]. split; [|reflexivity].
    intros _. split; [reflexivity|].
    eexists. split; [reflexivity|]. now apply Qgeb_ge in Hok.
  - split; [|reflexivity]. split; [discriminate|].
    intros [Hst _]. discriminate Hst.
Qed.

(** C2.  The loop of [run_quantum_simulation] stops after [n] passes with
    [1 <= n <= 3], the function returns, and [results.attempts] is [n], an
    integer in [[1, 3]].  This holds for every noise level (in particular
    for those in [[0, 1]]), both purification settings and every stream of
    draws. *)
Theorem run_terminates_within_three_attempts noise pur g :
  exists (n : nat) out,
    (1 <= n <= 3)%nat
    /\ while_loop noise pur (initial_state g)
       = Nat.iter n (loop_body noise pur) (initial_state g)
    /\ (forall j, (j < n)%nat ->
          loop_cond (Nat.iter j (loop_body noise pur) (initial_state g))
          = true)
    /\ loop_cond (Nat.iter n (loop_body noise pur) (initial_state g))
       = false
    /\ fst (run_quantum_simulation noise pur g) = Returned out
    /\ r_attempts (o_results out) = Z.of_nat n
    /\ (1 <= r_attempts (o_results out) <= 3)%Z.
Proof.
  destruct (run_returns noise pur g) as (n & Hn & Hlt & Hw & _ & E).
  cbv zeta in Hw, E. rewrite E.
  exists n. eexists. split; [assumption|].
  rewrite <- iter_before_attempt in Hw by lia.
  split; [assumption|]. split.
  { intros j Hj. apply (Hlt (S j)). lia. }
  split.
  { rewrite <- Hw.
    destruct (while_loop_passes noise pur (initial_state g))
      as (m & -> & _ & Hm). exact Hm. }
  split; [reflexivity|]. cbn [o_results r_attempts].
  split; [reflexivity | lia].
Qed.

(** C3.  When every draw lies in [[0, 1)], [results.fidelity] lies in
    [[0.5, 1.0]], for every noise level and both purification settings.
    The default 0 of [steps[-1].get("fidelity", 0)] is never used: the last
    record has status "success" or "retry" and its fidelity field is the
    value reported. *)
Theorem result_fidelity_range noise pur g :
  unit_draws g ->
  exists out d,
    fst (run_quantum_simulation noise pur g) = Returned out
    /\ 0.5 <= r_fidelity (o_results out) <= 1.0
    /\ last_item (o_steps out) = Returned d
    /\ (st_status d = Success \/ st_status d = Retry)
    /\ st_fidelity d = Some (r_fidelity (o_results out)).
Proof.
  intros Hg.
  destruct (run_returns noise pur g) as (n & Hn & Hlt & _ & _ & E).
  cbv zeta in E. rewrite E. clear E.
  set (p := before_attempt noise pur g n).
  eexists. eexists. split; [reflexivity|].
  cbn [o_steps o_results r_fidelity].
  split.
  { apply pass_fidelity_range. now apply unit_draws_before_attempt. }
  rewrite loop_body_steps, last_item_emitted. cbv zeta.
  split; [reflexivity|].
  destruct (Qgeb (pass_fidelity noise pur p) threshold);
    cbn [st_status st_fidelity]; auto.
Qed.

Lemma unit_draws_zeros : unit_draws zeros.
Proof. intros n. unfold zeros. split; lra. Defined.

Lemma unit_draws_halves : unit_draws halves.
Proof. intros n. unfold halves. split; lra. Defined.

Lemma result_fidelity_range_witness :
  unit_draws halves
  /\ exists out d,
       fst (run_quantum_simulation 0.5 true halves) = Returned out
       /\ 0.5 <= r_fidelity (o_results out) <= 1.0
       /\ last_item (o_steps out) = Returned d
       /\ (st_status d = Success \/ st_status d = Retry)
       /\ st_fidelity d = Some (r_fidelity (o_results out)).
Proof.
  split; [exact unit_draws_halves|].
  apply (result_fidelity_range 0.5 true halves). exact unit_draws_halves.
Defined.

(** C7.  [results.latency] is [results.attempts * (1 + noiseLevel)], the
    same expression on the values reported in [results.attempts] and
    [results.noiseLevel].  It depends on nothing else: two runs at the same
    noise level that report the same number of attempts report the same
    latency, whatever the purification setting and the draws. *)
Theorem latency_formula noise pur g :
  exists out,
    fst (run_quantum_simulation noise pur g) = Returned out
    /\ r_noiseLevel (o_results out) = noise
    /\ r_latency (o_results out)
       = inject_Z (r_attempts (o_results out)) * (1 + noise)
    /\ (forall pur' g' out',
          fst (run_quantum_simulation noise pur' g') = Returned out' ->
          r_attempts (o_results out') = r_attempts (o_results out) ->
          r_latency (o_results out') = r_latency (o_results out)).
Proof.
  destruct (run_returns noise pur g) as (n & _ & _ & _ & _ & E).
  cbv zeta in E. rewrite E.
  eexists. split; [reflexivity|]. split; [reflexivity|].
  split; [reflexivity|].
  intros pur' g' out' Hrun Hatt.
  destruct (run_spec _ _ _ _ Hrun) as (m & _ & _ & _ & Hres).
  rewrite Hres in *. cbn [o_results r_attempts r_latency] in *.
  now rewrite Hatt.
Qed.

(** The engine at its declared type: for every rational noise level,
    inside [[0, 1]] or not, and both purification settings,
    [run_quantum_simulation] returns a result.  The loop test holds in the
    initial state, so the body runs at least once and [steps[-1]] finds a
    last element. *)
Lemma run_always_returns noise pur g :
  exists out d,
    fst (run_quantum_simulation noise pur g) = Returned out
    /\ (forall e, fst (run_quantum_simulation noise pur g) <> Raised e)
    /\ loop_cond (initial_state g) = true
    /\ last_item (steps (while_loop noise pur (initial_state g)))
       = Returned d.
Proof.
  destruct (run_returns noise pur g) as (n & Hn & Hlt & Hw & _ & E).
  cbv zeta in Hw, E. rewrite E, Hw.
  eexists. eexists. split; [reflexivity|].
  split; [discriminate|]. split; [reflexivity|].
  rewrite loop_body_steps. apply last_item_emitted.
Qed.

(** C6.  With noise level 1.0, no purification and every draw in
    [[0, 1)], the value of [calculate_fidelity] in each of the three
    attempts is the minimum 0.5 it is clamped up to, which is below the
    threshold 0.8; the run returns [attempts = 3] and [success = false]. *)
Theorem full_noise_exhausts_attempts g :
  unit_draws g ->
  exists out,
    fst (run_quantum_simulation 1.0 false g) = Returned out
    /\ (forall k, (1 <= k <= 3)%nat ->
          raw_fidelity 1.0 false g k = 0.5
          /\ raw_fidelity 1.0 false g k < 0.8)
    /\ r_attempts (o_results out) = 3%Z
    /\ r_success (o_results out) = false.
Proof.
  intros Hg.
  assert (Hraw : forall k, (1 <= k <= 3)%nat ->
            pass_raw 1.0 (before_attempt 1.0 false g k) = 0.5
            /\ pass_fidelity 1.0 false (before_attempt 1.0 false g k) = 0.5).
  { intros k Hk. apply pass_fidelity_full_noise.
    - now apply unit_draws_before_attempt.
    - rewrite before_attempt_attempt by lia. lia. }
  destruct (run_returns 1.0 false g) as (n & Hn & Hlt & _ & Hend & E).
  cbv zeta in Hend, E. rewrite E. clear E.
  eexists. split; [reflexivity|].
  cbn [o_results r_attempts r_success].
  destruct (Hraw n ltac:(lia)) as [_ Hf].
  split.
  { intros k Hk. rewrite raw_fidelity_pass by lia.
    destruct (Hraw k Hk) as [-> _]. split; [reflexivity | lra]. }
  rewrite Hf.
  assert (Hno : Qgeb 0.5 threshold = false) by reflexivity.
  split; [|exact Hno].
  unfold loop_cond in Hend.
  rewrite loop_body_success, loop_body_attempt, Hf, Hno in Hend.
  rewrite (loop_cond_success _ (Hlt n ltac:(lia))) in Hend.
  rewrite before_attempt_attempt in Hend by lia.
  cbn [orb negb andb] in Hend. apply Z.ltb_ge in Hend.
  unfold max_attempts in Hend. lia.
Qed.

Lemma full_noise_exhausts_attempts_witness :
  unit_draws halves
  /\ exists out,
       fst (run_quantum_simulation 1.0 false halves) = Returned out
       /\ (forall k, (1 <= k <= 3)%nat ->
             raw_fidelity 1.0 false halves k = 0.5
             /\ raw_fidelity 1.0 false halves k < 0.8)
       /\ r_attempts (o_results out) = 3%Z
       /\ r_success (o_results out) = false.
Proof.
  split; [exact unit_draws_halves|].
  apply (full_noise_exhausts_attempts halves). exact unit_draws_halves.
Defined.

(** C4.  In a run with purification enabled and every draw in [[0, 1)],
    whenever the value of [calculate_fidelity] in an executed attempt is
    below 0.8, the records of that attempt with status "purifying" are
    exactly two, at progress 0.4 and 0.5; the first carries that value and
    the second a fidelity at least as large. *)
Theorem purification_steps noise g out k :
  unit_draws g ->
  fst (run_quantum_simulation noise true g) = Returned out ->
  (1 <= Z.of_nat k <= r_attempts (o_results out))%Z ->
  raw_fidelity noise true g k < 0.8 ->
  exists f2,
    filter is_purifying (steps_of_attempt k (o_steps out))
    = [mkStep Purifying 0.4 (Some (raw_fidelity noise true g k))
         (Z.of_nat k) MsgPurifying;
       mkStep Purifying 0.5 (Some f2) (Z.of_nat k)
         (MsgPurified (f2 * 100))]
    /\ raw_fidelity noise true g k <= f2.
Proof.
  intros Hg Hrun Hk Hraw.
  destruct (run_spec _ _ _ _ Hrun) as (n & Hn & Hlt & Hsteps & Hres).
  rewrite Hres in Hk. cbn [r_attempts] in Hk.
  rewrite Hsteps, steps_of_attempt_passes.
  destruct (Nat.leb_spec 1 k); [|lia].
  destruct (Nat.leb_spec k n); [|lia]. cbn [andb].
  rewrite raw_fidelity_pass in * by lia.
  set (p := before_attempt noise true g k) in *.
  assert (Hp : pass_purifies noise true p = true).
  { unfold pass_purifies. cbn [andb]. now apply Qltb_lt. }
  exists (pass_fidelity noise true p).
  rewrite filter_purifying_emitted, Hp.
  subst p. rewrite before_attempt_attempt by lia.
  split; [reflexivity|].
  apply pass_fidelity_boost. now apply unit_draws_before_attempt.
Qed.

Lemma purification_steps_witness :
  unit_draws halves
  /\ fst (run_quantum_simulation 0.3 true halves) = Returned purified_run
  /\ (1 <= Z.of_nat 1 <= r_attempts (o_results purified_run))%Z
  /\ raw_fidelity 0.3 true halves 1 < 0.8
  /\ exists f2,
       filter is_purifying (steps_of_attempt 1 (o_steps purified_run))
       = [mkStep Purifying 0.4 (Some (raw_fidelity 0.3 true halves 1))
            (Z.of_nat 1) MsgPurifying;
          mkStep Purifying 0.5 (Some f2) (Z.of_nat 1)
            (MsgPurified (f2 * 100))]
       /\ raw_fidelity 0.3 true halves 1 <= f2.
Proof.
  assert (H1 : fst (run_quantum_simulation 0.3 true halves)
               = Returned purified_run) by (vm_compute; reflexivity).
  assert (H2 : (1 <= Z.of_nat 1 <= r_attempts (o_results purified_run))%Z)
    by (vm_compute; split; discriminate).
  assert (H3 : raw_fidelity 0.3 true halves 1 < 0.8)
    by (vm_compute; reflexivity).
  split; [exact unit_draws_halves|]. split; [exact H1|].
  split; [exact H2|]. split; [exact H3|].
  exact (purification_steps 0.3 halves purified_run 1
           unit_draws_halves H1 H2 H3).
Defined.

(** C5, as stated, fails: with noise level 1.0, purification and every
    draw 0, each of the three attempts emits seven records, 21 in all. *)
Lemma trace_longer_than_18 :
  ~ (forall noise pur g out,
       0 <= noise <= 1 -> unit_draws g ->
       fst (run_quantum_simulation noise pur g) = Returned out ->
       (length (o_steps out) <= 18)%nat).
Proof.
  intros H.
  assert (Hrun : fst (run_quantum_simulation 1.0 true zeros)
                 = Returned exhausted_run) by (vm_compute; reflexivity).
  assert (Hnoise : 0 <= 1.0 <= 1) by (split; lra).
  specialize (H 1.0 true zeros exhausted_run Hnoise unit_draws_zeros Hrun).
  vm_compute in H. lia.
Qed.

(** C5, amended.  An attempt emits at most seven records (three before
    the fidelity is computed, two "purifying" ones when purification runs,
    "measuring", and "success" or "retry"), and there are at most three
    attempts: the trace has at most 21 records. *)
Theorem trace_length_bound noise pur g :
  exists out,
    fst (run_quantum_simulation noise pur g) = Returned out
    /\ (forall k, (length (steps_of_attempt k (o_steps out)) <= 7)%nat)
    /\ (r_attempts (o_results out) <= 3)%Z
    /\ (length (o_steps out) <= 7 * Z.to_nat (r_attempts (o_results out)))%nat
    /\ (length (o_steps out) <= 21)%nat.
Proof.
  destruct (run_returns noise pur g) as (n & Hn & _ & _ & _ & E).
  cbv zeta in E.
  exists (returned_output (fst (run_quantum_simulation noise pur g))).
  assert (Hrun : fst (run_quantum_simulation noise pur g)
                 = Returned (returned_output
                               (fst (run_quantum_simulation noise pur g))))
    by (rewrite E; reflexivity).
  split; [exact Hrun|].
  destruct (run_spec _ _ _ _ Hrun) as (m & Hm & _ & Hsteps & Hres).
  rewrite Hsteps, Hres. cbn [r_attempts].
  assert (Hlen : (length
                    (flat_map
                       (fun k => emitted noise pur
                                   (before_attempt noise pur g k))
                       (seq 1 m)) <= 7 * m)%nat).
  { rewrite <- (length_seq m 1) at 2.
    apply flat_map_length_le. intros k. apply emitted_length. }
  split.
  { intros k. rewrite steps_of_attempt_passes.
    destruct (_ && _); [apply emitted_length | cbn; lia]. }
  split; [lia|]. rewrite Nat2Z.id. split; [exact Hlen | lia].
Qed.

(** C8, as stated, fails: in the run with noise level 0.3, purification
    and every draw 1/2, the fourth record is the first "purifying" record
    of attempt 1.  It carries the fidelity 0.7, and no "measuring" record
    precedes it: the "measuring" record of the attempt is the sixth. *)
Lemma fidelity_before_measuring :
  ~ (forall noise pur g out,
       0 <= noise <= 1 -> unit_draws g ->
       fst (run_quantum_simulation noise pur g) = Returned out ->
       fidelity_from is_measuring (o_steps out)).
Proof.
  intros H.
  assert (Hrun : fst (run_quantum_simulation 0.3 true halves)
                 = Returned purified_run) by (vm_compute; reflexivity).
  assert (Hnoise : 0 <= 0.3 <= 1) by (split; lra).
  specialize (H 0.3 true halves purified_run Hnoise unit_draws_halves Hrun).
  specialize (H (firstn 3 (o_steps purified_run))
                (nth 3 (o_steps purified_run)
                   (mkStep Initializing 0 None 0 MsgBellPair))
                (skipn 4 (o_steps purified_run)) eq_refl).
  destruct H as [H _].
  destruct (H eq_refl) as (m & Hm & Hopen & _).
  cbn in Hm.
  destruct Hm as [<- | [<- | [<- | [<- | []]]]]; discriminate Hopen.
Qed.

(** C8, amended.  A record carries a fidelity field exactly when its
    status is not "initializing" or "sending", and exactly when it stands at
    or after the first record of its attempt that follows "sending": the
    first "purifying" record when purification runs, the "measuring" record
    otherwise. *)
Theorem fidelity_from_purifying_or_measuring noise pur g out :
  fst (run_quantum_simulation noise pur g) = Returned out ->
  fidelity_from (fun m => is_purifying m || is_measuring m) (o_steps out)
  /\ (forall d, In d (o_steps out) ->
        (st_fidelity d = None <->
         st_status d = Initializing \/ st_status d = Sending)).
Proof.
  intros Hrun.
  destruct (run_spec _ _ _ _ Hrun) as (n & Hn & _ & Hsteps & _).
  rewrite Hsteps. split.
  - apply fidelity_from_passes.
  - intros d Hd. apply in_passes in Hd. destruct Hd as (k & _ & Hd).
    now apply emitted_fidelity_status in Hd.
Qed.

Lemma fidelity_from_purifying_or_measuring_witness :
  fst (run_quantum_simulation 0.3 true halves) = Returned purified_run
  /\ fidelity_from (fun m => is_purifying m || is_measuring m)
       (o_steps purified_run)
  /\ (forall d, In d (o_steps purified_run) ->
        (st_fidelity d = None <->
         st_status d = Initializing \/ st_status d = Sending)).
Proof.
  assert (H1 : fst (run_quantum_simulation 0.3 true halves)
               = Returned purified_run) by (vm_compute; reflexivity).
  split; [exact H1|].
  exact (fidelity_from_purifying_or_measuring 0.3 true halves purified_run
           H1).
Defined.

(** C10.  A record with status "purifying" occurs among the records of an
    attempt only when purification is enabled and the value of
    [calculate_fidelity] in that attempt is below 0.8.  A run without
    purification has no "purifying" record, and an attempt whose value of
    [calculate_fidelity] is at least 0.8 has none. *)
Theorem purifying_only_when_needed noise pur g out :
  fst (run_quantum_simulation noise pur g) = Returned out ->
  (forall k d,
     In d (steps_of_attempt k (o_steps out)) ->
     st_status d = Purifying ->
     pur = true /\ raw_fidelity noise pur g k < 0.8)
  /\ (pur = false -> filter is_purifying (o_steps out) = [])
  /\ (forall k,
        0.8 <= raw_fidelity noise pur g k ->
        filter is_purifying (steps_of_attempt k (o_steps out)) = []).
Proof.
  intros Hrun.
  destruct (run_spec _ _ _ _ Hrun) as (n & Hn & _ & Hsteps & _).
  rewrite Hsteps. clear Hsteps Hrun.
  assert (Hpur : forall s d,
            In d (emitted noise pur s) -> st_status d = Purifying ->
            pass_purifies noise pur s = true).
  { intros s d Hd Hst.
    assert (Hf : In d (filter is_purifying (emitted noise pur s))).
    { apply filter_In. split; [assumption|].
      unfold is_purifying. now rewrite Hst. }
    rewrite filter_purifying_emitted in Hf.
    destruct (pass_purifies noise pur s); [reflexivity | destruct Hf]. }
  split; [|split].
  - intros k d Hd Hst. rewrite steps_of_attempt_passes in Hd.
    destruct (Nat.leb_spec 1 k); [|destruct Hd].
    destruct (Nat.leb_spec k n); [|destruct Hd]. cbn [andb] in Hd.
    apply Hpur in Hd; [|assumption].
    unfold pass_purifies in Hd. apply andb_prop in Hd.
    destruct Hd as [Hp Hlt]. split; [assumption|].
    rewrite raw_fidelity_pass by lia. now apply Qltb_lt.
  - intros ->. apply filter_drop. intros d Hd.
    apply in_passes in Hd. destruct Hd as (k & _ & Hd).
    unfold is_purifying. destruct (st_status d) eqn:Hst; try reflexivity.
    apply Hpur in Hd; [|assumption]. discriminate Hd.
  - intros k Hk. rewrite steps_of_attempt_passes.
    destruct (Nat.leb_spec 1 k); [|reflexivity].
    destruct (Nat.leb_spec k n); [|reflexivity]. cbn [andb].
    rewrite filter_purifying_emitted.
    rewrite raw_fidelity_pass in Hk by lia.
    unfold pass_purifies. apply Qltb_ge in Hk. unfold threshold.
    rewrite Hk. now rewrite andb_false_r.
Qed.

Lemma purifying_only_when_needed_witness :
  fst (run_quantum_simulation 0.3 true halves) = Returned purified_run
  /\ (forall k d,
        In d (steps_of_attempt k (o_steps purified_run)) ->
        st_status d = Purifying ->
        true = true /\ raw_fidelity 0.3 true halves k < 0.8)
  /\ (true = false -> filter is_purifying (o_steps purified_run) = [])
  /\ (forall k,
        0.8 <= raw_fidelity 0.3 true halves k ->
        filter is_purifying (steps_of_attempt k (o_steps purified_run)) = []).
Proof.
  assert (H1 : fst (run_quantum_simulation 0.3 true halves)
               = Returned purified_run) by (vm_compute; reflexivity).
  split; [exact H1|].
  exact (purifying_only_when_needed 0.3 true halves purified_run H1).
Defined.

(** * Further properties of [calculate_fidelity] *)


(** X1.  For every float noise level, in or out of [[0, 1]], every draw
    and every attempt number whose predecessor converts to a float (the
    conversion [(attempt - 1) * 0.05] makes), [calculate_fidelity] returns
    a value in [[0.5, 1.0]]: the lower half of the range its docstring
    gives, 0.0 to 1.0, is never used. *)
Theorem calculate_fidelity_clamped noise k g :
  fits_float (k - 1) = true ->
  0.5 <= fst (calculate_fidelity noise k g) <= 1.0.
Proof.
  intros _. apply calculate_fidelity_range.
Qed.

Lemma calculate_fidelity_clamped_witness :
  fits_float (3 - 1) = true
  /\ 0.5 <= fst (calculate_fidelity 1.5 3 halves) <= 1.0.
Proof.
  split; [reflexivity|].
  exact (calculate_fidelity_clamped 1.5 3 halves eq_refl).
Defined.





(** * Further properties of [run_quantum_simulation] *)

(** The number of passes is the number of the first attempt that measures
    a fidelity of at least the threshold, or 3 when there is none. *)
Lemma run_first_success noise pur g :
  exists n : nat,
    (1 <= n <= 3)%nat
    /\ (forall k, (1 <= k < n)%nat ->
          Qgeb (measured_fidelity noise pur g k) threshold = false)
    /\ (Qgeb (measured_fidelity noise pur g n) threshold = true \/ n = 3%nat)
    /\ fst (run_quantum_simulation noise pur g)
       = Returned
           {| o_steps :=
                flat_map
                  (fun k => emitted noise pur (before_attempt noise pur g k))
                  (seq 1 n);
              o_results :=
                {| r_success :=
                     Qgeb (measured_fidelity noise pur g n) threshold;
                   r_fidelity := measured_fidelity noise pur g n;
                   r_attempts := Z.of_nat n;
                   r_latency := inject_Z (Z.of_nat n) * (1 + noise);
                   r_noiseLevel := noise;
                   r_purificationEnabled := pur |} |}.
Proof.
  destruct (run_returns noise pur g) as (n & Hn & Hlt & _ & Hend & E).
  cbv zeta in Hend, E. exists n. split; [assumption|].
  unfold measured_fidelity. split; [|split].
  - intros k Hk.
    assert (Hc : loop_cond (before_attempt noise pur g (S k)) = true)
      by (apply Hlt; lia).
    apply loop_cond_success in Hc.
    replace (before_attempt noise pur g (S k))
      with (loop_body noise pur (before_attempt noise pur g k)) in Hc
      by (unfold before_attempt; destruct k; [lia | reflexivity]).
    rewrite loop_body_success in Hc. now apply orb_false_elim in Hc.
  - unfold loop_cond in Hend.
    rewrite loop_body_success, loop_body_attempt in Hend.
    rewrite before_attempt_attempt in Hend by lia.
    destruct (Qgeb _ threshold); [now left | right].
    rewrite (loop_cond_success _ (Hlt n ltac:(lia))) in Hend.
    cbn [orb negb andb] in Hend. apply Z.ltb_ge in Hend.
    unfold max_attempts in Hend. lia.
  - rewrite E. do 2 f_equal.
    rewrite <- iter_before_attempt by lia. apply steps_passes.
Qed.

Lemma emitted_progress noise pur s :
  StronglySorted Qlt (map st_progress (emitted noise pur s)).
Proof.
  unfold emitted. cbv zeta.
  destruct (pass_purifies noise pur s);
    destruct (Qgeb (pass_fidelity noise pur s) threshold); cbn [app map];
    repeat (constructor; [|repeat (constructor; [reflexivity|]);
                            constructor]);
    constructor.
Qed.

(** X4.  Within every attempt the progress values of the successive
    records increase strictly. *)
Theorem progress_increases_within_attempt noise pur g :
  exists out,
    fst (run_quantum_simulation noise pur g) = Returned out
    /\ forall k,
         StronglySorted Qlt
           (map st_progress (steps_of_attempt k (o_steps out))).
Proof.
  destruct (run_first_success noise pur g) as (n & _ & _ & _ & E).
  rewrite E. eexists. split; [reflexivity|]. cbn [o_steps].
  intros k. rewrite steps_of_attempt_passes.
  destruct (_ && _); [apply emitted_progress | constructor].
Qed.

Lemma StronglySorted_app {A} (R : A -> A -> Prop) a b :
  StronglySorted R a -> StronglySorted R b ->
  (forall x y, In x a -> In y b -> R x y) ->
  StronglySorted R (a ++ b).
Proof.
  intros Ha Hb Hab. induction Ha as [|x a Ha IH Hx]; [exact Hb|].
  cbn [app]. constructor.
  - apply IH. intros u v Hu Hv. apply Hab; [now right | assumption].
  - apply Forall_app. split; [assumption|].
    apply Forall_forall. intros y Hy. apply Hab; [now left | assumption].
Qed.

Lemma StronglySorted_constant (c : Z) l :
  (forall x, In x l -> x = c) -> StronglySorted Z.le l.
Proof.
  induction l as [|x l IH]; intros H; constructor.
  - apply IH. intros y Hy. apply H. now right.
  - apply Forall_forall. intros y Hy.
    rewrite (H x) by now left. rewrite (H y) by now right. lia.
Qed.

Lemma passes_attempts_sorted noise pur g n :
  StronglySorted Z.le
    (map st_attempt
       (flat_map (fun k => emitted noise pur (before_attempt noise pur g k))
          (seq 1 n))).
Proof.
  induction n as [|n IH]; [constructor|].
  rewrite seq_S, flat_map_app, map_app. cbn [flat_map Nat.add].
  rewrite app_nil_r. apply StronglySorted_app; [exact IH | |].
  - apply (StronglySorted_constant (Z.of_nat (S n))).
    intros x Hx. apply in_map_iff in Hx. destruct Hx as (d & <- & Hd).
    rewrite (emitted_attempt _ _ _ _ Hd).
    apply before_attempt_attempt. lia.
  - intros x y Hx Hy.
    apply in_map_iff in Hx. destruct Hx as (d & <- & Hd).
    apply in_map_iff in Hy. destruct Hy as (e & <- & He).
    apply passes_attempt_le in Hd.
    rewrite (emitted_attempt _ _ _ _ He), before_attempt_attempt by lia.
    lia.
Qed.

(** X5.  The attempt numbers of the trace never decrease along the trace
    and lie between 1 and [results.attempts]; every attempt from 1 to
    [results.attempts] is present and opens with the two "initializing"
    records and the "sending" record. *)
Theorem attempts_numbered noise pur g :
  exists out,
    fst (run_quantum_simulation noise pur g) = Returned out
    /\ StronglySorted Z.le (map st_attempt (o_steps out))
    /\ (forall d, In d (o_steps out) ->
          (1 <= st_attempt d <= r_attempts (o_results out))%Z)
    /\ (forall k : nat,
          (1 <= Z.of_nat k <= r_attempts (o_results out))%Z ->
          exists rest,
            steps_of_attempt k (o_steps out)
            = mkStep Initializing 0.1 None (Z.of_nat k)
                (MsgInitializing (Z.of_nat k) max_attempts)
              :: mkStep Initializing 0.2 None (Z.of_nat k) MsgBellPair
              :: mkStep Sending 0.3 None (Z.of_nat k) MsgSending
              :: rest).
Proof.
  destruct (run_first_success noise pur g) as (n & Hn & _ & _ & E).
  rewrite E. eexists. split; [reflexivity|].
  cbn [o_steps o_results r_attempts].
  split; [apply passes_attempts_sorted|]. split.
  - intros d Hd. now apply passes_attempt_le in Hd.
  - intros k Hk. rewrite steps_of_attempt_passes.
    destruct (Nat.leb_spec 1 k); [|lia].
    destruct (Nat.leb_spec k n); [|lia]. cbn [andb].
    unfold emitted. cbv zeta. rewrite before_attempt_attempt by lia.
    cbn [app]. eexists. reflexivity.
Qed.

Lemma emitted_verdict noise pur s d :
  In d (emitted noise pur s) ->
  (st_status d = Retry ->
   st_fidelity d = Some (pass_fidelity noise pur s)
   /\ Qgeb (pass_fidelity noise pur s) threshold = false)
  /\ (st_status d = Success ->
      st_fidelity d = Some (pass_fidelity noise pur s)
      /\ Qgeb (pass_fidelity noise pur s) threshold = true).
Proof.
  unfold emitted. cbv zeta.
  destruct (pass_purifies noise pur s);
    destruct (Qgeb (pass_fidelity noise pur s) threshold) eqn:Hok;
    cbn [app In]; intros H;
    repeat (destruct H as [<- | H];
            [cbn; split; intros Hst;
             first [discriminate Hst | split; reflexivity] |]);
    destruct H.
Qed.

Lemma emitted_verdict_last noise pur s :
  exists front v,
    emitted noise pur s = front ++ [v]
    /\ (forall d, In d front -> st_status d <> Success)
    /\ (Qgeb (pass_fidelity noise pur s) threshold = false ->
        st_status v = Retry).
Proof.
  unfold emitted. cbv zeta.
  destruct (pass_purifies noise pur s);
    destruct (Qgeb (pass_fidelity noise pur s) threshold); cbn [app];
    match goal with
    | |- exists front v, [?a; ?b; ?c; ?d; ?e; ?f; ?h] = _ /\ _ =>
        exists [a; b; c; d; e; f], h
    | |- exists front v, [?a; ?b; ?c; ?d; ?e] = _ /\ _ =>
        exists [a; b; c; d], e
    end;
    (split; [reflexivity|]; split;
     [intros d Hd; cbn [In] in Hd;
      repeat (destruct Hd as [<- | Hd]; [discriminate|]); destruct Hd
     | intros Hf; first [discriminate Hf | reflexivity]]).
Qed.

Lemma only_last_is_success (front : list step) v pre d post :
  (forall x, In x front -> st_status x <> Success) ->
  front ++ [v] = pre ++ d :: post ->
  st_status d = Success -> post = [].
Proof.
  intros Hfront E Hd.
  apply app_eq_app in E. destruct E as (l & [[E1 E2] | [E1 E2]]).
  - destruct l as [|x l]; cbn in E2.
    + now injection E2 as _ ->.
    + injection E2 as <- _. exfalso. apply (Hfront d); [|assumption].
      rewrite E1. apply in_elt.
  - destruct l as [|x l]; cbn in E2.
    + now injection E2 as _ <-.
    + injection E2 as _ E2. now destruct l.
Qed.

(** X6.  The verdict records agree with the threshold and with the order
    of the attempts: a "retry" record carries a fidelity below 0.8, a
    "success" record one of at least 0.8; a "success" record can only be the
    last record of the trace; and every attempt before the last one ends
    with a "retry" record. *)
Theorem verdict_records noise pur g :
  exists out,
    fst (run_quantum_simulation noise pur g) = Returned out
    /\ (forall d, In d (o_steps out) -> st_status d = Retry ->
          exists f, st_fidelity d = Some f /\ f < 0.8)
    /\ (forall d, In d (o_steps out) -> st_status d = Success ->
          exists f, st_fidelity d = Some f /\ 0.8 <= f)
    /\ (forall pre d post,
          o_steps out = pre ++ d :: post ->
          st_status d = Success -> post = [])
    /\ (forall k : nat,
          (1 <= Z.of_nat k < r_attempts (o_results out))%Z ->
          exists d,
            last_item (steps_of_attempt k (o_steps out)) = Returned d
            /\ st_status d = Retry).
Proof.
  destruct (run_first_success noise pur g) as (n & Hn & Hfail & _ & E).
  rewrite E. eexists. split; [reflexivity|].
  cbn [o_steps o_results r_attempts].
  split; [|split; [|split]].
  - intros d Hd Hst. apply in_passes in Hd. destruct Hd as (k & _ & Hd).
    apply emitted_verdict in Hd. destruct Hd as [Hd _].
    destruct (Hd Hst) as [Hf Hlow].
    eexists. split; [exact Hf | now apply Qgeb_lt in Hlow].
  - intros d Hd Hst. apply in_passes in Hd. destruct Hd as (k & _ & Hd).
    apply emitted_verdict in Hd. destruct Hd as [_ Hd].
    destruct (Hd Hst) as [Hf Hok].
    eexists. split; [exact Hf | now apply Qgeb_ge in Hok].
  - destruct n as [|n]; [lia|].
    rewrite seq_S, flat_map_app. cbn [flat_map Nat.add].
    rewrite app_nil_r.
    destruct (emitted_verdict_last noise pur
                (before_attempt noise pur g (S n)))
      as (front & v & -> & Hfront & _).
    rewrite app_assoc. intros pre d post.
    apply only_last_is_success.
    intros x Hx. apply in_app_or in Hx. destruct Hx as [Hx | Hx].
    + apply in_passes in Hx. destruct Hx as (k & Hk & Hx).
      apply emitted_verdict in Hx. destruct Hx as [_ Hx].
      intros Hst. destruct (Hx Hst) as [_ Hok].
      unfold measured_fidelity in Hfail.
      rewrite Hfail in Hok by lia. discriminate Hok.
    + now apply Hfront.
  - intros k Hk. rewrite steps_of_attempt_passes.
    destruct (Nat.leb_spec 1 k); [|lia].
    destruct (Nat.leb_spec k n); [|lia]. cbn [andb].
    destruct (emitted_verdict_last noise pur (before_attempt noise pur g k))
      as (front & v & -> & _ & Hv).
    exists v. split; [apply last_item_app|].
    apply Hv. apply Hfail. lia.
Qed.

Lemma emitted_length_exact noise pur s :
  length (emitted noise pur s)
  = (5 + length (filter is_purifying (emitted noise pur s)))%nat.
Proof.
  rewrite filter_purifying_emitted. unfold emitted. cbv zeta.
  destruct (pass_purifies noise pur s); reflexivity.
Qed.

Lemma passes_length_exact noise pur g l :
  length
    (flat_map (fun k => emitted noise pur (before_attempt noise pur g k)) l)
  = (5 * length l
     + length
         (filter is_purifying
            (flat_map
               (fun k => emitted noise pur (before_attempt noise pur g k))
               l)))%nat.
Proof.
  induction l as [|k l IH]; [reflexivity|].
  cbn [flat_map length]. rewrite filter_app, !length_app, IH.
  rewrite emitted_length_exact. lia.
Qed.

(** X7.  The trace has five records for each attempt and two more for each
    attempt that purifies: its length is [5 * attempts] plus the number of
    "purifying" records.  It is never shorter than five records, and
    without purification it is exactly [5 * attempts] long. *)
Theorem trace_length_exact noise pur g :
  exists out,
    fst (run_quantum_simulation noise pur g) = Returned out
    /\ length (o_steps out)
       = (5 * Z.to_nat (r_attempts (o_results out))
          + length (filter is_purifying (o_steps out)))%nat
    /\ (5 <= length (o_steps out))%nat
    /\ (pur = false ->
        length (o_steps out)
        = (5 * Z.to_nat (r_attempts (o_results out)))%nat).
Proof.
  destruct (run_first_success noise pur g) as (n & Hn & _ & _ & E).
  rewrite E. eexists. split; [reflexivity|].
  cbn [o_steps o_results r_attempts]. rewrite Nat2Z.id.
  pose proof (passes_length_exact noise pur g (seq 1 n)) as Hlen.
  rewrite length_seq in Hlen.
  split; [exact Hlen|]. split; [lia|].
  intros ->. rewrite Hlen.
  rewrite (filter_drop is_purifying); [cbn; lia|].
  intros d Hd. apply in_passes in Hd. destruct Hd as (k & _ & Hd).
  destruct (is_purifying d) eqn:Hp; [|reflexivity].
  assert (Hf : In d (filter is_purifying
                       (emitted noise false
                          (before_attempt noise false g k))))
    by (apply filter_In; now split).
  rewrite filter_purifying_emitted in Hf. destruct Hf.
Qed.

Lemma fidelities_emitted noise pur s :
  fidelities (emitted noise pur s)
  = (if pass_purifies noise pur s
     then [pass_raw noise s; pass_fidelity noise pur s]
     else [])
    ++ [pass_fidelity noise pur s; pass_fidelity noise pur s].
Proof.
  unfold emitted. cbv zeta.
  destruct (pass_purifies noise pur s);
    destruct (Qgeb (pass_fidelity noise pur s) threshold); reflexivity.
Qed.

Lemma fidelities_emitted_sorted noise pur s :
  unit_draws (gen s) ->
  StronglySorted Qle (fidelities (emitted noise pur s))
  /\ Forall (fun f => 0.5 <= f <= 1.0) (fidelities (emitted noise pur s)).
Proof.
  intros Hg. rewrite fidelities_emitted.
  pose proof (pass_fidelity_boost noise pur s Hg) as Hb.
  pose proof (pass_fidelity_range noise pur s Hg) as Hf.
  pose proof (pass_raw_range noise s) as Hr.
  destruct (pass_purifies noise pur s); cbn [app]; split;
    repeat (constructor; try lra).
Qed.

(** X8.  With every draw in [[0, 1)], every fidelity field of the trace
    lies in [[0.5, 1.0]], and within an attempt the fidelity carried by the
    successive records never decreases. *)
Theorem fidelity_fields_bounded_and_rising noise pur g :
  unit_draws g ->
  exists out,
    fst (run_quantum_simulation noise pur g) = Returned out
    /\ Forall (fun f => 0.5 <= f <= 1.0) (fidelities (o_steps out))
    /\ forall k,
         StronglySorted Qle (fidelities (steps_of_attempt k (o_steps out))).
Proof.
  intros Hg.
  destruct (run_first_success noise pur g) as (n & _ & _ & _ & E).
  rewrite E. eexists. split; [reflexivity|]. cbn [o_steps]. split.
  - unfold fidelities at 1. apply Forall_flat_map.
    apply Forall_forall. intros d Hd.
    apply in_passes in Hd. destruct Hd as (k & _ & Hd).
    assert (Hk : unit_draws (gen (before_attempt noise pur g k)))
      by now apply unit_draws_before_attempt.
    destruct (fidelities_emitted_sorted noise pur _ Hk) as [_ Hall].
    unfold fidelities in Hall. rewrite Forall_flat_map in Hall.
    rewrite Forall_forall in Hall. now apply Hall.
  - intros k. rewrite steps_of_attempt_passes.
    destruct (_ && _); [|constructor].
    apply fidelities_emitted_sorted.
    now apply unit_draws_before_attempt.
Qed.

Lemma fidelity_fields_bounded_and_rising_witness :
  unit_draws halves
  /\ exists out,
       fst (run_quantum_simulation 0.5 true halves) = Returned out
       /\ Forall (fun f => 0.5 <= f <= 1.0) (fidelities (o_steps out))
       /\ forall k,
            StronglySorted Qle
              (fidelities (steps_of_attempt k (o_steps out))).
Proof.
  split; [exact unit_draws_halves|].
  exact (fidelity_fields_bounded_and_rising 0.5 true halves
           unit_draws_halves).
Defined.

Lemma measuring_record_emitted noise pur s :
  In (mkStep Measuring 0.7 (Some (pass_fidelity noise pur s))
        (attempt s + 1) MsgMeasuring)
     (emitted noise pur s).
Proof.
  unfold emitted. cbv zeta. apply in_or_app. right.
  apply in_or_app. right. now left.
Qed.

(** X9.  [results.attempts] is the number of the first attempt that
    measures a fidelity of at least 0.8, or 3 when no attempt does: every
    earlier attempt measured less than 0.8, [results.success] tells whether
    the last attempt reached 0.8, a failed run always used all three
    attempts, and [results.fidelity] is what the last attempt measured.
    The fidelity an attempt measures is the one its "measuring" record
    carries. *)
Theorem attempts_is_first_success noise pur g :
  exists out (n : nat),
    fst (run_quantum_simulation noise pur g) = Returned out
    /\ r_attempts (o_results out) = Z.of_nat n
    /\ (forall k, (1 <= k <= n)%nat ->
          In (mkStep Measuring 0.7
                (Some (measured_fidelity noise pur g k)) (Z.of_nat k)
                MsgMeasuring)
             (o_steps out))
    /\ (forall k, (1 <= k < n)%nat -> measured_fidelity noise pur g k < 0.8)
    /\ (r_success (o_results out) = true <->
        0.8 <= measured_fidelity noise pur g n)
    /\ (r_success (o_results out) = false -> n = 3%nat)
    /\ r_fidelity (o_results out) = measured_fidelity noise pur g n.
Proof.
  destruct (run_first_success noise pur g)
    as (n & Hn & Hfail & Hlast & E).
  rewrite E. eexists. exists n. split; [reflexivity|].
  cbn [o_steps o_results r_attempts r_success r_fidelity].
  split; [reflexivity|]. split; [|split; [|split; [|split]]].
  - intros k Hk. apply in_flat_map. exists k. split.
    + apply in_seq. lia.
    + rewrite <- (before_attempt_attempt noise pur g k) by lia.
      apply measuring_record_emitted.
  - intros k Hk. apply Qgeb_lt. now apply Hfail.
  - apply Qgeb_ge.
  - intros Hf. destruct Hlast as [Hok | Hn3]; [congruence | assumption].
  - reflexivity.
Qed.

(** ** Noise levels that decide the outcome *)










(** ** The draws a run takes *)

Lemma gen_loop_body noise pur s i :
  gen (loop_body noise pur s) i
  = gen s ((if pass_purifies noise pur s then 2 else 1) + i)%nat.
Proof.
  rewrite loop_body_shape. cbn [gen].
  destruct (pass_purifies noise pur s); reflexivity.
Qed.

Lemma draws_passes noise pur g n :
  exists c : nat,
    (2 * c
     = 2 * n
       + length
           (filter is_purifying
              (flat_map
                 (fun k => emitted noise pur (before_attempt noise pur g k))
                 (seq 1 n))))%nat
    /\ forall i,
         gen (Nat.iter n (loop_body noise pur) (initial_state g)) i
         = g (c + i)%nat.
Proof.
  induction n as [|n (c & Hc & IH)].
  - exists O. split; reflexivity.
  - rewrite seq_S, flat_map_app, filter_app, length_app.
    cbn [flat_map Nat.add]. rewrite app_nil_r, filter_purifying_emitted.
    change (before_attempt noise pur g (S n))
      with (Nat.iter n (loop_body noise pur) (initial_state g)).
    set (p := Nat.iter n (loop_body noise pur) (initial_state g)) in *.
    exists (c + (if pass_purifies noise pur p then 2 else 1))%nat.
    split.
    + destruct (pass_purifies noise pur p); cbn [length]; lia.
    + intros i. rewrite Nat.iter_succ. fold p.
      rewrite gen_loop_body, IH. f_equal. lia.
Qed.

Lemma run_generator noise pur g :
  snd (run_quantum_simulation noise pur g)
  = gen (while_loop noise pur (initial_state g)).
Proof.
  unfold run_quantum_simulation.
  destruct (last_item _); reflexivity.
Qed.

(** X13.  A run takes one draw for each attempt and one more for each
    attempt that purifies, at least one and at most six in all, and leaves
    the generator at the draw that follows them. *)
Theorem draws_consumed noise pur g :
  exists out (c : nat),
    fst (run_quantum_simulation noise pur g) = Returned out
    /\ (2 * c
        = 2 * Z.to_nat (r_attempts (o_results out))
          + length (filter is_purifying (o_steps out)))%nat
    /\ (1 <= c <= 6)%nat
    /\ forall i, snd (run_quantum_simulation noise pur g) i = g (c + i)%nat.
Proof.
  destruct (run_first_success noise pur g) as (n & Hn & _ & _ & E).
  destruct (run_passes noise pur g) as (n' & Hn' & Hw & _ & _).
  destruct (draws_passes noise pur g n) as (c & Hc & Hgen).
  assert (n' = n) as ->.
  { pose proof (f_equal attempt Hw) as Ha.
    destruct (run_returns noise pur g) as (m & Hm & _ & Hw' & _ & E').
    cbv zeta in Hw', E'. rewrite E in E'. injection E' as _ _ Hnm.
    rewrite Hw', loop_body_attempt, before_attempt_attempt in Ha by lia.
    rewrite attempt_iter in Ha. cbn [initial_state attempt] in Ha. lia. }
  rewrite E. eexists. exists c. split; [reflexivity|].
  cbn [o_steps o_results r_attempts]. rewrite Nat2Z.id.
  split; [exact Hc|]. split.
  - pose proof (passes_length_exact noise pur g (seq 1 n)) as Hlen.
    pose proof (flat_map_length_le
                  (fun k => emitted noise pur (before_attempt noise pur g k))
                  7 (seq 1 n)
                  (fun k => emitted_length noise pur _)) as Hle.
    rewrite length_seq in Hlen, Hle. lia.
  - intros i. rewrite run_generator, Hw. apply Hgen.
Qed.

Lemma loop_body_same_draws noise pur m s s' :
  steps s = steps s' -> attempt s = attempt s' -> success s = success s' ->
  same_draws (S (S m)) (gen s) (gen s') ->
  steps (loop_body noise pur s) = steps (loop_body noise pur s')
  /\ attempt (loop_body noise pur s) = attempt (loop_body noise pur s')
  /\ success (loop_body noise pur s) = success (loop_body noise pur s')
  /\ same_draws m (gen (loop_body noise pur s))
       (gen (loop_body noise pur s')).
Proof.
  destruct s as [st a su g1], s' as [st' a' su' g2].
  cbn [steps attempt success gen].
  intros <- <- <- Hg.
  assert (H0 : g1 O = g2 O) by (apply Hg; lia).
  assert (H1 : g1 1%nat = g2 1%nat) by (apply Hg; lia).
  assert (Hraw : pass_raw noise (mkLoop st a su g1)
                 = pass_raw noise (mkLoop st a su g2)).
  { unfold pass_raw, calculate_fidelity, random.
    cbn [fst gen attempt]. now rewrite H0. }
  assert (Hp : pass_purifies noise pur (mkLoop st a su g1)
               = pass_purifies noise pur (mkLoop st a su g2)).
  { unfold pass_purifies. now rewrite Hraw. }
  assert (Hf : pass_fidelity noise pur (mkLoop st a su g1)
               = pass_fidelity noise pur (mkLoop st a su g2)).
  { unfold pass_fidelity. rewrite Hp, Hraw. cbn [gen]. now rewrite H1. }
  assert (He : emitted noise pur (mkLoop st a su g1)
               = emitted noise pur (mkLoop st a su g2)).
  { unfold emitted. now rewrite Hp, Hraw, Hf. }
  rewrite !loop_body_shape. cbn [steps attempt success gen].
  rewrite He, Hf, Hp. repeat split.
  intros i Hi.
  destruct (pass_purifies noise pur (mkLoop st a su g2)); apply Hg; lia.
Qed.

Lemma iter_same_draws noise pur g g' n m :
  same_draws (2 * n + m) g g' ->
  let s := Nat.iter n (loop_body noise pur) (initial_state g) in
  let s' := Nat.iter n (loop_body noise pur) (initial_state g') in
  steps s = steps s' /\ attempt s = attempt s' /\ success s = success s'
  /\ same_draws m (gen s) (gen s').
Proof.
  revert m. induction n as [|n IH]; intros m Hg; cbv zeta.
  - cbn [Nat.iter nat_rect initial_state steps attempt success gen].
    repeat split. exact Hg.
  - rewrite !Nat.iter_succ.
    destruct (IH (S (S m))) as (H1 & H2 & H3 & H4).
    { intros i Hi. apply Hg. lia. }
    now apply loop_body_same_draws.
Qed.

(** X14.  The result of a run depends on the generator only through its
    first six draws: two generators that agree on them give the same trace
    and the same summary. *)
Theorem result_depends_on_six_draws noise pur g g' :
  same_draws 6 g g' ->
  fst (run_quantum_simulation noise pur g)
  = fst (run_quantum_simulation noise pur g').
Proof.
  intros Hg.
  destruct (run_passes noise pur g) as (n & Hn & Hw & Hlt & Hend).
  destruct (run_passes noise pur g') as (n' & Hn' & Hw' & Hlt' & Hend').
  assert (Hcond : forall j, (j <= 3)%nat ->
            loop_cond (Nat.iter j (loop_body noise pur) (initial_state g))
            = loop_cond
                (Nat.iter j (loop_body noise pur) (initial_state g'))).
  { intros j Hj.
    destruct (iter_same_draws noise pur g g' j 0) as (_ & H2 & H3 & _).
    { intros i Hi. apply Hg. lia. }
    unfold loop_cond. now rewrite H2, H3. }
  assert (n = n').
  { destruct (Nat.lt_trichotomy n n') as [Hlt0 | [Heq | Hgt0]];
      [exfalso | assumption | exfalso].
    - specialize (Hlt' (S n) ltac:(lia)). unfold before_attempt in Hlt'.
      cbn [pred] in Hlt'. rewrite <- Hcond in Hlt' by lia. congruence.
    - specialize (Hlt (S n') ltac:(lia)). unfold before_attempt in Hlt.
      cbn [pred] in Hlt. rewrite Hcond in Hlt by lia. congruence. }
  subst n'.
  destruct (iter_same_draws noise pur g g' n 0) as (H1 & H2 & H3 & _).
  { intros i Hi. apply Hg. lia. }
  unfold run_quantum_simulation. rewrite Hw, Hw', H1, H2, H3.
  destruct (last_item _); reflexivity.
Qed.

Lemma result_depends_on_six_draws_witness :
  same_draws 6 zeros (fun i => if (i <? 6)%nat then 0 else 0.5)
  /\ fst (run_quantum_simulation 1.0 true zeros)
     = fst (run_quantum_simulation 1.0 true
              (fun i => if (i <? 6)%nat then 0 else 0.5)).
Proof.
  assert (H : same_draws 6 zeros (fun i => if (i <? 6)%nat then 0 else 0.5)).
  { intros i Hi. apply Nat.ltb_lt in Hi. now rewrite Hi. }
  split; [exact H|].
  exact (result_depends_on_six_draws 1.0 true zeros _ H).
Defined.

Lemma purifying_free_run noise g out :
  fst (run_quantum_simulation noise false g) = Returned out ->
  filter is_purifying (o_steps out) = []
  /\ length (o_steps out)
     = (5 * Z.to_nat (r_attempts (o_results out)))%nat.
Proof.
  intros Hrun.
  destruct (run_spec _ _ _ _ Hrun) as (n & Hn & _ & Hsteps & Hres).
  rewrite Hsteps, Hres. cbn [r_attempts]. rewrite Nat2Z.id.
  assert (Hnone :
            filter is_purifying
              (flat_map
                 (fun k => emitted noise false
                             (before_attempt noise false g k))
                 (seq 1 n)) = []).
  { apply filter_drop. intros d Hd.
    apply in_passes in Hd. destruct Hd as (k & _ & Hd).
    destruct (is_purifying d) eqn:Hp; [|reflexivity].
    assert (Hf : In d (filter is_purifying
                         (emitted noise false
                            (before_attempt noise false g k))))
      by (apply filter_In; now split).
    rewrite filter_purifying_emitted in Hf. destruct Hf. }
  split; [exact Hnone|].
  pose proof (passes_length_exact noise false g (seq 1 n)) as Hlen.
  rewrite length_seq, Hnone in Hlen. cbn [length] in Hlen. lia.
Qed.

(** * The request handler *)

Lemma run_on_json_number v p g n :
  as_number v = Some n ->
  exists out,
    fst (run_quantum_simulation n (truthy p) g) = Returned out
    /\ run_on_json v p g
       = (Jsonified
            {| resp_steps := o_steps out;
               resp_success := r_success (o_results out);
               resp_fidelity := r_fidelity (o_results out);
               resp_attempts := r_attempts (o_results out);
               resp_latency := r_latency (o_results out);
               resp_noiseLevel := v;
               resp_purificationEnabled := p |},
          snd (run_quantum_simulation n (truthy p) g)).
Proof.
  intros Hn.
  destruct (run_returns n (truthy p) g) as (k & _ & _ & _ & _ & E).
  cbv zeta in E. eexists. split; [exact E|].
  unfold run_on_json. rewrite Hn.
  destruct (run_quantum_simulation n (truthy p) g) as [r g'].
  cbn [fst snd] in *. rewrite E. reflexivity.
Qed.

Lemma float_limit_value : float_limit = (2 ^ 1024 - 2 ^ 970)%Z.
Proof. vm_compute. reflexivity. Qed.

Lemma huge_integer_value : huge_integer = (10 ^ 400)%Z.
Proof. vm_compute. reflexivity. Qed.

(** C9, as stated, fails.  A noise level need not be a float: for the
    integer [huge_integer], a noise level outside [[0, 1]], the
    subtraction [1.0 - noise_level] of the first attempt raises
    [OverflowError], and no result is returned.  (For null or a string it
    raises [TypeError].) *)
Lemma run_raises_on_huge_integer :
  ~ (forall (noise_level purification_enabled : json) (g : rng),
       exists r g',
         run_on_json noise_level purification_enabled g = (Jsonified r, g')).
Proof.
  intros H.
  destruct (H (JInt huge_integer) (JBool false) zeros) as (r & g' & E).
  unfold run_on_json in E.
  assert (Hbig : as_number (JInt huge_integer) = None)
    by (vm_compute; reflexivity).
  rewrite Hbig in E. discriminate E.
Qed.

(** C9, amended.  For every noise level that is a float, or an integer or
    a bool that converts to a float, inside [[0, 1]] or not, and for every
    value of the purification flag, [run_quantum_simulation] returns a
    result and raises nothing.  The loop test holds in the initial state,
    so the body runs at least once and [steps[-1]] finds a last element. *)
Theorem run_returns_on_numbers noise_level purification_enabled g n :
  as_number noise_level = Some n ->
  exists r g' d,
    run_on_json noise_level purification_enabled g = (Jsonified r, g')
    /\ (forall e,
          fst (run_quantum_simulation n (truthy purification_enabled) g)
          <> Raised e)
    /\ loop_cond (initial_state g) = true
    /\ last_item
         (steps (while_loop n (truthy purification_enabled)
                   (initial_state g)))
       = Returned d.
Proof.
  intros Hn.
  destruct (run_on_json_number _ purification_enabled g n Hn)
    as (out & Hout & E).
  destruct (run_always_returns n (truthy purification_enabled) g)
    as (out' & d & _ & Hno & Hcond & Hlast).
  rewrite E. eexists. eexists. exists d.
  split; [reflexivity|]. split; [exact Hno|]. split; assumption.
Qed.

Lemma run_returns_on_numbers_witness :
  as_number (JNumber 1.5) = Some 1.5
  /\ exists r g' d,
       run_on_json (JNumber 1.5) (JString "yes") halves = (Jsonified r, g')
       /\ (forall e,
             fst (run_quantum_simulation 1.5 (truthy (JString "yes")) halves)
             <> Raised e)
       /\ loop_cond (initial_state halves) = true
       /\ last_item
            (steps (while_loop 1.5 (truthy (JString "yes"))
                      (initial_state halves)))
          = Returned d.
Proof.
  split; [reflexivity|].
  exact (run_returns_on_numbers (JNumber 1.5) (JString "yes") halves 1.5
           eq_refl).
Defined.

(** X15.  What [simulate] does with the ["noiseLevel"] key of the request.
    A value that is present but is no number is not replaced by the
    default: for null, a string, an array or an object the handler raises
    [TypeError], for an integer of magnitude [float_limit] or more it
    raises [OverflowError], and in both cases it takes no draw.  When the
    key is absent the noise level is 0.2; in that case and for a float, a
    smaller integer or a bool the handler answers, with between one and
    three attempts, the latency of that noise level, and the two values of
    the request (or their defaults 0.2 and false) copied into the
    summary. *)
Theorem simulate_noise_level data g :
  (forall v,
     data "noiseLevel"%string = Some v ->
     match v with
     | JNull | JString _ | JArray _ | JObject _ =>
         simulate data g = (Unhandled TypeError, g)
     | JInt z =>
         (float_limit <= Z.abs z)%Z ->
         simulate data g = (Unhandled OverflowError, g)
     | JNumber _ | JBool _ => True
     end)
  /\ (forall n,
        (data "noiseLevel"%string = None /\ n = 0.2)
        \/ (exists v, data "noiseLevel"%string = Some v
                      /\ as_number v = Some n) ->
        exists r g',
          simulate data g = (Jsonified r, g')
          /\ (1 <= resp_attempts r <= 3)%Z
          /\ resp_latency r = inject_Z (resp_attempts r) * (1 + n)
          /\ resp_noiseLevel r
             = dict_get data "noiseLevel"%string (JNumber 0.2)
          /\ resp_purificationEnabled r
             = dict_get data "purificationEnabled"%string (JBool false)).
Proof.
  split.
  - intros v Hv. unfold simulate, dict_get, run_on_json. rewrite Hv.
    destruct v as [ | b | q | z | s | l | l];
      [reflexivity | exact I | exact I | | reflexivity | reflexivity
      | reflexivity].
    intros Hz. cbn [as_number]. unfold fits_float.
    destruct (Z.ltb_spec (Z.abs z) float_limit); [lia|].
    reflexivity.
  - intros n Hn.
    assert (Hnum : as_number
                     (dict_get data "noiseLevel"%string (JNumber 0.2))
                   = Some n).
    { unfold dict_get.
      destruct Hn as [[-> ->] | (v & -> & Hv)]; [reflexivity | exact Hv]. }
    unfold simulate.
    set (p := dict_get data "purificationEnabled"%string (JBool false)).
    destruct (run_on_json_number _ p g n Hnum) as (out & Hout & ->).
    destruct (run_spec _ _ _ _ Hout) as (k & Hk & _ & _ & Hres).
    eexists. eexists. split; [reflexivity|].
    cbn [resp_attempts resp_latency resp_noiseLevel
         resp_purificationEnabled].
    rewrite Hres. cbn [r_attempts r_latency].
    split; [lia|]. repeat split.
Qed.

(** X16.  [simulate] reads ["purificationEnabled"] through its truth value
    only.  When the key is absent or its value is falsy (false, null, 0,
    the empty string, array or object) the trace of the answer has no
    "purifying" record.  When the value is truthy, for instance any
    non-empty string, the string "false" included, the answer is the one
    for [true] in everything but the copy of the value. *)
Theorem simulate_purification_by_truth data g n :
  as_number (dict_get data "noiseLevel"%string (JNumber 0.2)) = Some n ->
  let p := dict_get data "purificationEnabled"%string (JBool false) in
  exists r g',
    simulate data g = (Jsonified r, g')
    /\ (truthy p = false -> filter is_purifying (resp_steps r) = [])
    /\ (truthy p = true ->
        exists r',
          simulate (dict_set data "purificationEnabled"%string (JBool true))
            g
          = (Jsonified r', g')
          /\ resp_steps r' = resp_steps r
          /\ resp_success r' = resp_success r
          /\ resp_fidelity r' = resp_fidelity r
          /\ resp_attempts r' = resp_attempts r
          /\ resp_latency r' = resp_latency r
          /\ resp_noiseLevel r' = resp_noiseLevel r).
Proof.
  intros Hnum p. unfold simulate. fold p.
  destruct (run_on_json_number _ p g n Hnum) as (out & Hout & E).
  rewrite E. eexists. eexists. split; [reflexivity|].
  cbn [resp_steps]. split.
  - intros Hp. rewrite Hp in Hout.
    destruct (purifying_free_run n g out Hout) as [H _]. exact H.
  - intros Hp.
    assert (Hn' : dict_get
                    (dict_set data "purificationEnabled"%string
                       (JBool true))
                    "noiseLevel"%string (JNumber 0.2)
                  = dict_get data "noiseLevel"%string (JNumber 0.2))
      by reflexivity.
    assert (Hp' : dict_get
                    (dict_set data "purificationEnabled"%string
                       (JBool true))
                    "purificationEnabled"%string (JBool false)
                  = JBool true) by reflexivity.
    rewrite Hn', Hp'.
    destruct (run_on_json_number _ (JBool true) g n Hnum)
      as (out' & Hout' & E').
    cbn [truthy] in Hout', E'. rewrite Hp in Hout, E |- *.
    rewrite Hout in Hout'. injection Hout' as <-.
    rewrite E'. eexists. split; [reflexivity|]. repeat split.
Qed.

Lemma simulate_purification_by_truth_witness :
  as_number (dict_get string_false_request "noiseLevel"%string (JNumber 0.2))
  = Some 0.2
  /\ exists r g',
       simulate string_false_request zeros = (Jsonified r, g')
       /\ (truthy (JString "false") = false ->
           filter is_purifying (resp_steps r) = [])
       /\ (truthy (JString "false") = true ->
           exists r',
             simulate
               (dict_set string_false_request "purificationEnabled"%string
                  (JBool true))
               zeros
             = (Jsonified r', g')
             /\ resp_steps r' = resp_steps r
             /\ resp_success r' = resp_success r
             /\ resp_fidelity r' = resp_fidelity r
             /\ resp_attempts r' = resp_attempts r
             /\ resp_latency r' = resp_latency r
             /\ resp_noiseLevel r' = resp_noiseLevel r).
Proof.
  split; [reflexivity|].
  exact (simulate_purification_by_truth string_false_request zeros 0.2
           eq_refl).
Defined.
